(** * glGA ECS scene graph: components and the ECSSManager registry

    A shallow embedding of [Component.py] and [ECSSManager.py].

    Python objects live in a store indexed by their identity ([ref], what
    [id(obj)] and the [is] operator observe).  A method that mutates [self]
    or its arguments is a function on the store; a method that can raise
    returns a [Result] next to the store it leaves behind.  Calls to [print]
    write to standard output only and are left out. *)

From stdpp Require Import gmap strings list fin_maps.

Set Default Proof Using "Type".

(** ** Python runtime: identities, exceptions, results *)

Definition ref := positive.

Inductive PyExn :=
| AttributeError (attr : string)   (* lookup of a missing attribute *)
| TypeError (msg : string)
| Raised (cls : string).           (* an exception of class [cls] raised by external code *)

Inductive Result (A : Type) :=
| Return (a : A)
| Raise (e : PyExn).
Arguments Return {A} a.
Arguments Raise {A} e.

Definition completes {A} (r : Result A) : bool :=
  match r with Return _ => true | Raise _ => false end.

(** [str.lower()], on the bytes of the string.  Only ASCII capitals change;
    no other code point lower-cases to an ASCII letter of ["root"], so the
    comparison made by [createEntity] is the same as Python's. *)
Definition lower_ascii (c : Ascii.ascii) : Ascii.ascii :=
  let n := Ascii.nat_of_ascii c in
  if (65 <=? n)%nat && (n <=? 90)%nat then Ascii.ascii_of_nat (n + 32) else c.

Fixpoint lower (s : string) : string :=
  match s with
  | EmptyString => EmptyString
  | String c s' => String (lower_ascii c) (lower s')
  end.

(** ** Component.py *)

(** The concrete subclasses of [Component] defined in the file. *)
Inductive CompClass := BasicTransformK | CameraK | RenderMeshK.

Global Instance CompClass_eq_dec : EqDecision CompClass.
Proof. solve_decision. Defined.

(** A [System] is used through duck typing only: [accept] looks a method up
    by name on whatever object it is given and calls it with the component.
    An object is therefore its table of methods; a method receives the
    identity of the visited component and acts on the state [W] it can
    reach.  [System.py] is not part of the sources, so nothing is assumed
    about which methods a system has or what they do. *)
Abbreviation Method W := (ref → W → Result unit * W).
Abbreviation System W := (gmap string (Method W)).

Definition call_method {W} (system : System W) (name : string) (arg : ref) (w : W)
  : Result unit * W :=
  match system !! name with
  | Some f => f arg w
  | None => (Raise (AttributeError name), w)
  end.

(** Statement sequencing: a raised exception skips the rest. *)
Definition seq_stmt {W} (s1 s2 : W → Result unit * W) (w : W) : Result unit * W :=
  match s1 w with
  | (Return _, w1) => s2 w1
  | (Raise e, w1) => (Raise e, w1)
  end.

(** The three classes set the same attributes by hand in their [__init__];
    [name], [type] and [id] default to [None].  [_parent = self] makes a
    fresh component its own parent.  The matrix type and [util.identity()]
    come from the linear-algebra collaborator and are parameters. *)

Module BasicTransform.
Record t (Matrix : Type) := Build {
  _name : option string;
  _type : option string;
  _id : option Z;
  _trs : Matrix;
  _l2world : Matrix;
  _l2cam : Matrix;
  _parent : ref;
  _children : list ref
}.
Arguments Build {Matrix}.
Arguments _name {Matrix}.
Arguments _type {Matrix}.
Arguments _id {Matrix}.
Arguments _trs {Matrix}.
Arguments _l2world {Matrix}.
Arguments _l2cam {Matrix}.
Arguments _parent {Matrix}.
Arguments _children {Matrix}.

Definition __init__ {Matrix} (identity : Matrix) (self : ref)
    (name type : option string) (id : option Z) : t Matrix :=
  {| _name := name; _type := type; _id := id;
     _trs := identity; _l2world := identity; _l2cam := identity;
     _parent := self; _children := [] |}.

Definition set_l2world {Matrix} (v : Matrix) (self : t Matrix) : t Matrix :=
  Build (_name self) (_type self) (_id self) (_trs self) v (_l2cam self)
        (_parent self) (_children self).
Definition set_trs {Matrix} (v : Matrix) (self : t Matrix) : t Matrix :=
  Build (_name self) (_type self) (_id self) v (_l2world self) (_l2cam self)
        (_parent self) (_children self).
Definition set_l2cam {Matrix} (v : Matrix) (self : t Matrix) : t Matrix :=
  Build (_name self) (_type self) (_id self) (_trs self) (_l2world self) v
        (_parent self) (_children self).

(** [update(self, **kwargs)]: three independent [if arg in kwargs] tests, in
    the order of the source.  [kwargs] is the dictionary of keyword
    arguments. *)
Definition update {Matrix} (self : t Matrix) (kwargs : gmap string Matrix) : t Matrix :=
  let arg1 := "l2world" in
  let arg2 := "trs" in
  let arg3 := "l2cam" in
  let self := match kwargs !! arg1 with Some v => set_l2world v self | None => self end in
  let self := match kwargs !! arg2 with Some v => set_trs v self | None => self end in
  let self := match kwargs !! arg3 with Some v => set_l2cam v self | None => self end in
  self.

(** [accept(self, system)]: both calls are made whatever the system is. *)
Definition accept {W} (self : ref) (system : System W) : W → Result unit * W :=
  seq_stmt (call_method system "apply" self)
           (call_method system "applyCamera" self).

(** [getNumberOfChildren], inherited from [Component]:
    [len(self._children)]. *)
Definition getNumberOfChildren {Matrix} (self : t Matrix) : Result nat :=
  Return (length (_children self)).
End BasicTransform.

Module Camera.
Record t (Matrix : Type) := Build {
  _name : option string;
  _type : option string;
  _id : option Z;
  _projMat : Matrix;
  _root2cam : Matrix;
  _parent : ref
}.
Arguments Build {Matrix}.
Arguments _name {Matrix}.
Arguments _type {Matrix}.
Arguments _id {Matrix}.
Arguments _projMat {Matrix}.
Arguments _root2cam {Matrix}.
Arguments _parent {Matrix}.

Definition __init__ {Matrix} (identity : Matrix) (self : ref) (projMatrix : Matrix)
    (name type : option string) (id : option Z) : t Matrix :=
  {| _name := name; _type := type; _id := id;
     _projMat := projMatrix; _root2cam := identity; _parent := self |}.

Definition update {Matrix} (self : t Matrix) (kwargs : gmap string Matrix) : t Matrix :=
  let arg1 := "root2cam" in
  match kwargs !! arg1 with
  | Some v => Build (_name self) (_type self) (_id self) (_projMat self) v (_parent self)
  | None => self
  end.

Definition accept {W} (self : ref) (system : System W) : W → Result unit * W :=
  call_method system "apply" self.

Definition set_projMat {Matrix} (v : Matrix) (self : t Matrix) : t Matrix :=
  Build (_name self) (_type self) (_id self) v (_root2cam self) (_parent self).
Definition set_root2cam {Matrix} (v : Matrix) (self : t Matrix) : t Matrix :=
  Build (_name self) (_type self) (_id self) (_projMat self) v (_parent self).

(** [getNumberOfChildren], inherited from [Component]: [Camera.__init__]
    sets no [_children] and does not call the [__init__] of [Component], so
    the attribute lookup in [len(self._children)] fails. *)
Definition getNumberOfChildren {Matrix} (self : t Matrix) : Result nat :=
  Raise (AttributeError "_children").
End Camera.

Module RenderMesh.
Record t (Matrix : Type) := Build {
  _name : option string;
  _type : option string;
  _id : option Z;
  _trs : Matrix;
  _parent : ref;
  _children : list ref
}.
Arguments Build {Matrix}.
Arguments _name {Matrix}.
Arguments _type {Matrix}.
Arguments _id {Matrix}.
Arguments _trs {Matrix}.
Arguments _parent {Matrix}.
Arguments _children {Matrix}.

Definition __init__ {Matrix} (identity : Matrix) (self : ref)
    (name type : option string) (id : option Z) : t Matrix :=
  {| _name := name; _type := type; _id := id;
     _trs := identity; _parent := self; _children := [] |}.

Definition accept {W} (self : ref) (system : System W) : W → Result unit * W :=
  call_method system "apply" self.

Definition getNumberOfChildren {Matrix} (self : t Matrix) : Result nat :=
  Return (length (_children self)).

(** [draw(self)]: one line on standard output.  [getClassName()] is the
    name of the class. *)
Definition draw {Matrix} (self : t Matrix) : list string :=
  ["RenderMesh : draw() called"].

(** [update(self)]: the signature has no [**kwargs], so a call with any
    keyword argument raises [TypeError] before the body runs.  The body
    prints and calls [draw]; the result carries the lines printed.  No
    attribute is assigned. *)
Definition update {Matrix} (self : t Matrix) (kwargs : gmap string Matrix)
  : Result unit * list string :=
  if bool_decide (kwargs = ∅)
  then (Return tt, ["RenderMesh : update() called"] ++ draw self)
  else (Raise (TypeError "update() got an unexpected keyword argument"), []).
End RenderMesh.

(** Dynamic dispatch of [c.accept(system)] on the class of [c]. *)
Definition accept {W} (k : CompClass) (self : ref) (system : System W)
  : W → Result unit * W :=
  match k with
  | BasicTransformK => BasicTransform.accept self system
  | CameraK => Camera.accept self system
  | RenderMeshK => RenderMesh.accept self system
  end.

(** The methods the [accept] of class [k] looks up, in call order. *)
Definition methods_called (k : CompClass) : list string :=
  match k with
  | BasicTransformK => ["apply"; "applyCamera"]
  | CameraK => ["apply"]
  | RenderMeshK => ["apply"]
  end.

(** ** Entities and the object store *)

(** Modelled from the spec: the [Entity] class.  [Entity.py] is imported by
    [ECSSManager.py] but is not among the sources.  Per the data model an
    entity has an integer id, a name and a type tag, a parent reference
    (itself when it has no parent), an ordered sequence of child entities
    and the components attached to it. *)
Module Entity.
Record t := Build {
  _name : string;
  _type : string;
  _id : Z;
  _parent : ref;
  _children : list ref;
  _components : list ref
}.

Definition __init__ (self : ref) (name type : string) (id : Z) : t :=
  {| _name := name; _type := type; _id := id;
     _parent := self; _children := []; _components := [] |}.

Definition getParent (self : t) : ref := _parent self.
End Entity.

(** What an identity may denote.  [OSystem] is an instance of a subclass of
    [System.System] (its methods are not stored here), [OOther] any other
    Python object. *)
Inductive PyObj (Matrix : Type) :=
| OEntity (e : Entity.t)
| OTransform (c : BasicTransform.t Matrix)
| OCamera (c : Camera.t Matrix)
| ORenderMesh (c : RenderMesh.t Matrix)
| OSystem
| OOther.
Arguments OEntity {Matrix} e.
Arguments OTransform {Matrix} c.
Arguments OCamera {Matrix} c.
Arguments ORenderMesh {Matrix} c.
Arguments OSystem {Matrix}.
Arguments OOther {Matrix}.

Abbreviation Heap Matrix := (gmap ref (PyObj Matrix)).

Definition isinstance_Entity {Matrix} (h : Heap Matrix) (r : ref) : bool :=
  match h !! r with Some (OEntity _) => true | _ => false end.

Definition isinstance_System {Matrix} (h : Heap Matrix) (r : ref) : bool :=
  match h !! r with Some OSystem => true | _ => false end.

(** [type(c)] for a component [c]. *)
Definition class_of {Matrix} (h : Heap Matrix) (r : ref) : option CompClass :=
  match h !! r with
  | Some (OTransform _) => Some BasicTransformK
  | Some (OCamera _) => Some CameraK
  | Some (ORenderMesh _) => Some RenderMeshK
  | _ => None
  end.

Definition isinstance_Component {Matrix} (h : Heap Matrix) (r : ref) : bool :=
  match class_of h r with Some _ => true | None => false end.

(** [isinstance(el, k)] where [el] may be [None]: the three component classes
    are unrelated by inheritance, so it is equality of classes. *)
Definition isinstance_class {Matrix} (h : Heap Matrix) (el : option ref) (k : CompClass) : bool :=
  match el with
  | Some r => bool_decide (class_of h r = Some k)
  | None => false
  end.

(** [obj._parent = p], for the objects that have the attribute. *)
Definition set_parent {Matrix} (p : ref) (o : PyObj Matrix) : PyObj Matrix :=
  match o with
  | OEntity e =>
      OEntity (Entity.Build (Entity._name e) (Entity._type e) (Entity._id e) p
                            (Entity._children e) (Entity._components e))
  | OTransform c =>
      OTransform (BasicTransform.Build (BasicTransform._name c) (BasicTransform._type c)
                    (BasicTransform._id c) (BasicTransform._trs c)
                    (BasicTransform._l2world c) (BasicTransform._l2cam c) p
                    (BasicTransform._children c))
  | OCamera c =>
      OCamera (Camera.Build (Camera._name c) (Camera._type c) (Camera._id c)
                 (Camera._projMat c) (Camera._root2cam c) p)
  | ORenderMesh c =>
      ORenderMesh (RenderMesh.Build (RenderMesh._name c) (RenderMesh._type c)
                     (RenderMesh._id c) (RenderMesh._trs c) p (RenderMesh._children c))
  | OSystem => OSystem
  | OOther => OOther
  end.

(** The chain of parents above [r], nearest first; it stops at an entity
    that is its own parent.  [fuel] bounds the walk on a store whose parent
    references form a loop. *)
Fixpoint ancestors {Matrix} (h : Heap Matrix) (fuel : nat) (r : ref) : list ref :=
  match fuel with
  | O => []
  | S n =>
      match h !! r with
      | Some (OEntity e) =>
          if bool_decide (Entity._parent e = r) then []
          else Entity._parent e :: ancestors h n (Entity._parent e)
      | _ => []
      end
  end.

(** [p] is a descendant of [c]: [c] is on the parent chain of [p]. *)
Definition descendant_of {Matrix} (h : Heap Matrix) (p c : ref) : bool :=
  bool_decide (c ∈ ancestors h (size h) p).

(** Modelled from the spec: the composite operation [Entity.add(child)] of
    the absent [Entity.py].  It attaches [child] (to the children when it is
    an entity, to the components when it is a component, not at all when it
    is no scene node) and sets [child.parent = self]; adding an entity below itself fails with
    [InvalidHierarchy] and changes nothing. *)
Definition Entity_add {Matrix} (self child : ref) (h : Heap Matrix)
  : Result unit * Heap Matrix :=
  match h !! self with
  | Some (OEntity e) =>
      if bool_decide (child = self) || descendant_of h self child
      then (Raise (Raised "InvalidHierarchy"), h)
      else
        match h !! child with
        | Some (OEntity ce) =>
            let e' := Entity.Build (Entity._name e) (Entity._type e) (Entity._id e)
                        (Entity._parent e) (Entity._children e ++ [child])
                        (Entity._components e) in
            (Return tt, <[child := set_parent self (OEntity ce)]> (<[self := OEntity e']> h))
        | Some (OSystem | OOther) | None => (Return tt, h)
        | Some o =>
            let e' := Entity.Build (Entity._name e) (Entity._type e) (Entity._id e)
                        (Entity._parent e) (Entity._children e)
                        (Entity._components e ++ [child]) in
            (Return tt, <[child := set_parent self o]> (<[self := OEntity e']> h))
        end
  | _ => (Return tt, h)
  end.

(** ** ECSSManager.py *)

Module ECSSManager.
(** The attributes set by [__init__].  [_entities_components] is a [dict]
    keyed by entity objects (hashed by identity); its values are lists whose
    entries are components or [None].  The code only ever inspects the entry
    of one key, so the iteration order of the [dict] is not observable. *)
Record t := Build {
  _systems : list ref;
  _components : list ref;
  _entities : list ref;
  _cameras : list ref;
  _entities_components : gmap ref (list (option ref));
  _next_entity_id : Z;
  _root : option ref
}.

Definition __init__ : t :=
  {| _systems := []; _components := []; _entities := []; _cameras := [];
     _entities_components := ∅; _next_entity_id := 0; _root := None |}.

Definition set_systems (v : list ref) (self : t) : t :=
  Build v (_components self) (_entities self) (_cameras self)
        (_entities_components self) (_next_entity_id self) (_root self).
Definition set_components (v : list ref) (self : t) : t :=
  Build (_systems self) v (_entities self) (_cameras self)
        (_entities_components self) (_next_entity_id self) (_root self).
Definition set_entities (v : list ref) (self : t) : t :=
  Build (_systems self) (_components self) v (_cameras self)
        (_entities_components self) (_next_entity_id self) (_root self).
Definition set_cameras (v : list ref) (self : t) : t :=
  Build (_systems self) (_components self) (_entities self) v
        (_entities_components self) (_next_entity_id self) (_root self).
Definition set_entities_components (v : gmap ref (list (option ref))) (self : t) : t :=
  Build (_systems self) (_components self) (_entities self) (_cameras self)
        v (_next_entity_id self) (_root self).
Definition set_root (v : option ref) (self : t) : t :=
  Build (_systems self) (_components self) (_entities self) (_cameras self)
        (_entities_components self) (_next_entity_id self) v.
End ECSSManager.

(** The second argument of [traverse_visit] is tested with [issubclass], so
    it matters whether a class or an instance is passed. *)
Inductive PyArg :=
| ArgObject (r : ref)
| ArgClass (subclass_of_Iterator : bool).

(** A call [c.accept(system)], as (component, system). *)
Definition AcceptCall : Type := ref * ref.

Section Methods.
Context {Matrix : Type}.
(** [Entity.add], the composite operation of the absent [Entity.py]: the
    methods are defined for whatever it does. *)
Variable add : ref → ref → Heap Matrix → Result unit * Heap Matrix.

Import ECSSManager.

Definition createEntity (entity : ref) (h : Heap Matrix) (self : t)
  : Result (option ref) * (Heap Matrix * t) :=
  match h !! entity with
  | Some (OEntity e) =>
      let self := set_entities (_entities self ++ [entity]) self in
      let self := set_entities_components
                    (<[entity := [None]]> (_entities_components self)) self in
      let self := if bool_decide (lower (Entity._name e) = "root")
                  then set_root (Some entity) self else self in
      (Return (Some entity), (h, self))
  | _ => (Return (Some entity), (h, self))
  end.

Definition createSystem (system : ref) (h : Heap Matrix) (self : t)
  : Result (option ref) * (Heap Matrix * t) :=
  if isinstance_System h system
  then (Return (Some system), (h, set_systems (_systems self ++ [system]) self))
  else (Return (Some system), (h, self)).

(** The body of the [else] branch of [addComponent]'s inner loop, which
    ends in [return component].  [value] is the list stored for [key]. *)
Definition attach (key component : ref) (value : list (option ref))
    (h : Heap Matrix) (self : t) : Result (option ref) * (Heap Matrix * t) :=
  match add key component h with
  | (Raise e, h') => (Raise e, (h', self))
  | (Return _, h') =>
      let value' := match value with
                    | None :: _ => <[0%nat := Some component]> value
                    | _ => value ++ [Some component]
                    end in
      (Return (Some component),
       (h', set_entities_components (<[key := value']> (_entities_components self)) self))
  end.

(** [for el in value]: [rest] is what remains to be visited.  An element of
    the class of [component] only rebinds the loop variable ([el = component])
    and the loop goes on; the first other element runs [attach] and returns.
    [None] is a loop that ran to its end. *)
Fixpoint for_el (key component : ref) (k : CompClass) (value rest : list (option ref))
    (h : Heap Matrix) (self : t) : option (Result (option ref) * (Heap Matrix * t)) :=
  match rest with
  | [] => None
  | el :: rest' =>
      if isinstance_class h el k
      then for_el key component k value rest' h self
      else Some (attach key component value h self)
  end.

Definition addComponent (entity component : ref) (h : Heap Matrix) (self : t)
  : Result (option ref) * (Heap Matrix * t) :=
  match isinstance_Entity h entity, class_of h component with
  | true, Some k =>
      let self := if bool_decide (k = CameraK)
                  then set_cameras (_cameras self ++ [component]) self
                  else set_components (_components self ++ [component]) self in
      match _entities_components self !! entity with
      | Some value =>
          match for_el entity component k value value h self with
          | Some out => out
          | None => (Return None, (h, self))
          end
      | None => (Return None, (h, self))
      end
  | _, _ => (Return None, (h, self))
  end.

Definition addEntityChild (entity_parent entity_child : ref) (h : Heap Matrix) (self : t)
  : Result (option ref) * (Heap Matrix * t) :=
  match h !! entity_parent, h !! entity_child with
  | Some (OEntity _), Some (OEntity ec) =>
      if bool_decide (Entity.getParent ec ≠ entity_parent)
      then match add entity_parent entity_child h with
           | (Return _, h') => (Return None, (h', self))
           | (Raise e, h') => (Raise e, (h', self))
           end
      else (Return None, (h, self))
  | _, _ => (Return None, (h, self))
  end.

(** [traverse_visit(system, iterator)]: the body of the [if] is [pass].  The
    list is the calls to [accept] made, in order.  [issubclass] raises
    [TypeError] when its first argument is not a class; it is not evaluated
    when the [isinstance] test fails. *)
Definition traverse_visit (system : ref) (iterator : PyArg) (h : Heap Matrix) (self : t)
  : Result (option ref) * list AcceptCall * (Heap Matrix * t) :=
  if isinstance_System h system
  then match iterator with
       | ArgClass _ => (Return None, [], (h, self))
       | ArgObject _ => (Raise (TypeError "issubclass() arg 1 must be a class"), [], (h, self))
       end
  else (Return None, [], (h, self)).

End Methods.

(** ** The singleton and the process state *)

(** [ECSSManager_instance] is the class attribute [ECSSManager._instance].
    [instances] holds the manager objects allocated so far; an object that
    [__new__] has created and [__init__] has not yet run on has no
    attributes ([None]).  [scene] is the store of all other objects. *)
Record World (Matrix : Type) := MkWorld {
  ECSSManager_instance : option ref;
  instances : gmap ref (option ECSSManager.t);
  scene : Heap Matrix
}.
Arguments MkWorld {Matrix}.
Arguments ECSSManager_instance {Matrix}.
Arguments instances {Matrix}.
Arguments scene {Matrix}.

(** The state of a process that has not touched the class yet. *)
Definition start {Matrix} (h : Heap Matrix) : World Matrix := MkWorld None ∅ h.

Definition __new__ {Matrix} (w : World Matrix) : ref * World Matrix :=
  match ECSSManager_instance w with
  | None =>
      let r := fresh (dom (instances w)) in
      (r, MkWorld (Some r) (<[r := None]> (instances w)) (scene w))
  | Some r => (r, w)
  end.

Definition __init__ {Matrix} (self : ref) (w : World Matrix) : World Matrix :=
  MkWorld (ECSSManager_instance w)
          (<[self := Some ECSSManager.__init__]> (instances w)) (scene w).

(** The expression [ECSSManager()]: [__new__], then [__init__] on the object
    it returned (always an instance of the class), which is the value. *)
Definition construct {Matrix} (w : World Matrix) : ref * World Matrix :=
  let '(obj, w1) := __new__ w in (obj, __init__ obj w1).

(** What client code can do between two constructions. *)
Inductive Call (Matrix : Type) :=
| Construct
| CallCreateEntity (self entity : ref)
| CallCreateSystem (self system : ref)
| CallAddComponent (self entity component : ref)
| CallAddEntityChild (self entity_parent entity_child : ref)
| CallTraverseVisit (self system : ref) (iterator : PyArg)
| ClientScene (f : Heap Matrix → Heap Matrix).   (* creating or changing scene objects *)
Arguments Construct {Matrix}.
Arguments CallCreateEntity {Matrix}.
Arguments CallCreateSystem {Matrix}.
Arguments CallAddComponent {Matrix}.
Arguments CallAddEntityChild {Matrix}.
Arguments CallTraverseVisit {Matrix}.
Arguments ClientScene {Matrix}.

(** A method call [self.m(...)] on an initialised manager; the state reached
    persists whether the call returns or raises. *)
Definition invoke {Matrix X} (self : ref)
    (m : Heap Matrix → ECSSManager.t → X * (Heap Matrix * ECSSManager.t))
    (w : World Matrix) : World Matrix :=
  match instances w !! self with
  | Some (Some mgr) =>
      let '(_, (h', mgr')) := m (scene w) mgr in
      MkWorld (ECSSManager_instance w) (<[self := Some mgr']> (instances w)) h'
  | _ => w
  end.

Section Run.
Context {Matrix : Type}.
Variable add : ref → ref → Heap Matrix → Result unit * Heap Matrix.

Definition run_call (c : Call Matrix) (w : World Matrix) : World Matrix :=
  match c with
  | Construct => snd (construct w)
  | CallCreateEntity self entity => invoke self (createEntity entity) w
  | CallCreateSystem self system => invoke self (createSystem system) w
  | CallAddComponent self entity component =>
      invoke self (addComponent add entity component) w
  | CallAddEntityChild self p c => invoke self (addEntityChild add p c) w
  | CallTraverseVisit self system iterator =>
      invoke self (λ h mgr, let '(r, _, st) := traverse_visit system iterator h mgr in (r, st)) w
  | ClientScene f => MkWorld (ECSSManager_instance w) (instances w) (f (scene w))
  end.

Definition run (calls : list (Call Matrix)) (w : World Matrix) : World Matrix :=
  foldl (λ w c, run_call c w) w calls.

End Run.

(** [createEntity(e)] does not occur in the calls. *)
Definition never_registered {Matrix} (e : ref) (calls : list (Call Matrix)) : Prop :=
  ∀ self, CallCreateEntity self e ∉ calls.

(** No manager has [e] as a key of its mapping. *)
Definition unregistered {Matrix} (e : ref) (w : World Matrix) : Prop :=
  ∀ self mgr, instances w !! self = Some (Some mgr) →
              ECSSManager._entities_components mgr !! e = None.

(** What a method leaves alone, apart from the two global collections and
    the mapping. *)
Definition same_registry_frame (m m' : ECSSManager.t) : Prop :=
  ECSSManager._systems m' = ECSSManager._systems m ∧
  ECSSManager._entities m' = ECSSManager._entities m ∧
  ECSSManager._next_entity_id m' = ECSSManager._next_entity_id m ∧
  ECSSManager._root m' = ECSSManager._root m.

(** ** The traversal the specification describes *)

(** Follows the words of the specification, for comparison with
    [traverse_visit]: the subtree below [root] in pre-order, children in
    their stored order. *)
Fixpoint spec_preorder {Matrix} (h : Heap Matrix) (fuel : nat) (r : ref) : list ref :=
  match fuel with
  | O => []
  | S n =>
      match h !! r with
      | Some (OEntity e) => r :: flat_map (spec_preorder h n) (Entity._children e)
      | _ => []
      end
  end.

Definition components_of {Matrix} (h : Heap Matrix) (r : ref) : list ref :=
  match h !! r with
  | Some (OEntity e) => Entity._components e
  | _ => []
  end.

(** Follows the words of the specification: [accept(system)] on each
    component of each node of the walk, in attachment order. *)
Definition spec_traverseAndVisit {Matrix} (h : Heap Matrix) (system root : ref)
  : list AcceptCall :=
  flat_map (λ e, map (λ c, (c, system)) (components_of h e))
           (spec_preorder h (size h) root).

(** ** A concrete scene *)

(** Matrices are opaque to the registry; integers stand in for them here,
    with [1] for the identity. *)
Definition E : ref := 1%positive.
Definition t1 : ref := 2%positive.
Definition t2 : ref := 3%positive.
Definition cam : ref := 4%positive.
Definition sys : ref := 5%positive.
Definition F : ref := 6%positive.

Definition scene0 : Heap Z :=
  <[E := OEntity (Entity.__init__ E "E" "Entity" 1)]>
  (<[t1 := OTransform (BasicTransform.__init__ 1%Z t1 (Some "t1") (Some "BasicTransform") (Some 2%Z))]>
  (<[t2 := OTransform (BasicTransform.__init__ 1%Z t2 (Some "t2") (Some "BasicTransform") (Some 3%Z))]>
  (<[cam := OCamera (Camera.__init__ 1%Z cam 1%Z (Some "cam") (Some "Camera") (Some 4%Z))]>
  (<[sys := OSystem]>
  (<[F := OEntity (Entity.__init__ F "F" "Entity" 6)]> ∅))))).

(** [m = ECSSManager(); m.createEntity(E); m.addComponent(E, t1)]. *)
Definition registered : Heap Z * ECSSManager.t :=
  snd (createEntity E scene0 ECSSManager.__init__).

Definition with_t1 : Heap Z * ECSSManager.t :=
  snd (addComponent Entity_add E t1 (fst registered) (snd registered)).

(** [E] with a camera, then the transform [t1]. *)
Definition with_cam_t1 : Heap Z * ECSSManager.t :=
  let st := snd (addComponent Entity_add E cam (fst registered) (snd registered)) in
  snd (addComponent Entity_add E t1 (fst st) (snd st)).

(** The calls that lead to [with_t1] from the start of the process; the
    manager is the first object allocated. *)
Definition calls0 : list (Call Z) :=
  [Construct; CallCreateEntity 1%positive E; CallAddComponent 1%positive E t1].


(** Modelled from the spec: the systems of the absent [System.py].  A system
    is a visitor that offers the two operations [accept] calls, [apply] and
    [applyCamera].  An operation that is handed a component of a kind the
    system does not support for it is a no-op, not a failure (section 4.2).
    [supports] says which kinds an operation handles, [body] is what the
    operation does with them: a black box acting on the scene. *)
Definition visitor {Matrix} (supports : string → CompClass → bool)
    (body : string → Method (Heap Matrix)) : System (Heap Matrix) :=
  let op (name : string) : Method (Heap Matrix) := λ c h,
    match class_of h c with
    | Some k => if supports name k then body name c h else (Return tt, h)
    | None => (Return tt, h)
    end in
  <["apply" := op "apply"]> {[ "applyCamera" := op "applyCamera" ]}.

(** Modelled from the spec: the three variants of section 4.3.
    [TransformSystem.apply] handles transforms; [CameraSystem.applyCamera]
    handles transforms and cameras, and since [Camera.accept] reaches a
    system through [apply] only, its [apply] handles cameras;
    [RenderSystem.apply] handles meshes. *)
Definition TransformSystem {Matrix} (body : Method (Heap Matrix)) : System (Heap Matrix) :=
  visitor (λ name k, bool_decide (name = "apply") && bool_decide (k = BasicTransformK))
          (λ _, body).
Definition CameraSystem {Matrix} (body : Method (Heap Matrix)) : System (Heap Matrix) :=
  visitor (λ name k,
             (bool_decide (name = "applyCamera")
              && (bool_decide (k = BasicTransformK) || bool_decide (k = CameraK)))
             || (bool_decide (name = "apply") && bool_decide (k = CameraK)))
          (λ _, body).
Definition RenderSystem {Matrix} (body : Method (Heap Matrix)) : System (Heap Matrix) :=
  visitor (λ name k, bool_decide (name = "apply") && bool_decide (k = RenderMeshK))
          (λ _, body).

(** A body that does nothing and returns, and one that fails. *)
Definition no_op {W} : Method W := λ _ w, (Return tt, w).
Definition failing {W} : Method W := λ _ w, (Raise (Raised "RuntimeError"), w).

(** A scene with an entity named as the root, the calls that register it
    and the manager they lead to. *)
Definition R : ref := 7%positive.
Definition scene_root : Heap Z :=
  <[R := OEntity (Entity.__init__ R "Root" "Entity" 7)]> scene0.
Definition calls_root : list (Call Z) :=
  [Construct; CallCreateEntity 1%positive E; CallCreateEntity 1%positive R].
Definition mgr_root : ECSSManager.t :=
  snd (snd (createEntity R scene_root (snd (snd (createEntity E scene_root ECSSManager.__init__))))).

(** ** The rest of Component.py *)

(** [CompNullIterator]: the iterator every concrete component returns from
    [__iter__].  [__next__] is [return None]; it never raises
    [StopIteration]. *)
Module CompNullIterator.
Record t := Build { _comp : ref }.

Definition __init__ (comp : ref) : t := {| _comp := comp |}.

Definition __next__ (self : t) : Result (option ref) * t := (Return None, self).
End CompNullIterator.

(** [__iter__] of [BasicTransform], [Camera] and [RenderMesh]. *)
Definition Component_iter (self : ref) : CompNullIterator.t :=
  CompNullIterator.__init__ self.

(** [for x in it: ...], run for at most [fuel] rounds: the values bound to
    [x], and whether the loop has ended.  An exception from [__next__]
    ([StopIteration]) ends the loop. *)
Fixpoint for_in (fuel : nat) (it : CompNullIterator.t) : list (option ref) * bool :=
  match fuel with
  | O => ([], false)
  | S n =>
      match CompNullIterator.__next__ it with
      | (Return x, it') => let '(xs, ended) := for_in n it' in (x :: xs, ended)
      | (Raise _, _) => ([], true)
      end
  end.

(** The properties that hold a matrix, by the name they have in their class.
    [Camera] declares the setter of [root2cam] under the name
    [orthoroot2camMat]: that name is a property with the getter and the
    setter, and [root2cam] itself is left without a setter. *)
Inductive MatrixProperty :=
| P_trs | P_l2world | P_l2cam           (* BasicTransform *)
| P_projMat | P_root2cam | P_orthoroot2camMat.   (* Camera *)

(** [obj.p], for a property [p] the class of [obj] declares. *)
Definition getprop {Matrix} (p : MatrixProperty) (o : PyObj Matrix) : option Matrix :=
  match o, p with
  | OTransform c, P_trs => Some (BasicTransform._trs c)
  | OTransform c, P_l2world => Some (BasicTransform._l2world c)
  | OTransform c, P_l2cam => Some (BasicTransform._l2cam c)
  | OCamera c, P_projMat => Some (Camera._projMat c)
  | OCamera c, (P_root2cam | P_orthoroot2camMat) => Some (Camera._root2cam c)
  | _, _ => None
  end.

(** [obj.p = v].  A property without a setter raises [AttributeError].
    Where the class of [obj] has no property of that name, the assignment
    makes a plain attribute of the public name [p], which no method reads:
    the attributes modelled are unchanged. *)
Definition setprop {Matrix} (p : MatrixProperty) (v : Matrix) (o : PyObj Matrix)
  : Result unit * PyObj Matrix :=
  match o, p with
  | OTransform c, P_trs => (Return tt, OTransform (BasicTransform.set_trs v c))
  | OTransform c, P_l2world => (Return tt, OTransform (BasicTransform.set_l2world v c))
  | OTransform c, P_l2cam => (Return tt, OTransform (BasicTransform.set_l2cam v c))
  | OCamera c, P_projMat => (Return tt, OCamera (Camera.set_projMat v c))
  | OCamera c, P_root2cam => (Raise (AttributeError "root2cam"), o)
  | OCamera c, P_orthoroot2camMat => (Return tt, OCamera (Camera.set_root2cam v c))
  | _, _ => (Return tt, o)
  end.

(** The setters of [name], [type] and [id], inherited from [Component]. *)
Definition set_name {Matrix} (v : option string) (o : PyObj Matrix) : PyObj Matrix :=
  match o with
  | OTransform c =>
      OTransform (BasicTransform.Build v (BasicTransform._type c) (BasicTransform._id c)
                    (BasicTransform._trs c) (BasicTransform._l2world c)
                    (BasicTransform._l2cam c) (BasicTransform._parent c)
                    (BasicTransform._children c))
  | OCamera c =>
      OCamera (Camera.Build v (Camera._type c) (Camera._id c) (Camera._projMat c)
                 (Camera._root2cam c) (Camera._parent c))
  | ORenderMesh c =>
      ORenderMesh (RenderMesh.Build v (RenderMesh._type c) (RenderMesh._id c)
                     (RenderMesh._trs c) (RenderMesh._parent c) (RenderMesh._children c))
  | _ => o
  end.

Definition set_type {Matrix} (v : option string) (o : PyObj Matrix) : PyObj Matrix :=
  match o with
  | OTransform c =>
      OTransform (BasicTransform.Build (BasicTransform._name c) v (BasicTransform._id c)
                    (BasicTransform._trs c) (BasicTransform._l2world c)
                    (BasicTransform._l2cam c) (BasicTransform._parent c)
                    (BasicTransform._children c))
  | OCamera c =>
      OCamera (Camera.Build (Camera._name c) v (Camera._id c) (Camera._projMat c)
                 (Camera._root2cam c) (Camera._parent c))
  | ORenderMesh c =>
      ORenderMesh (RenderMesh.Build (RenderMesh._name c) v (RenderMesh._id c)
                     (RenderMesh._trs c) (RenderMesh._parent c) (RenderMesh._children c))
  | _ => o
  end.

Definition set_id {Matrix} (v : option Z) (o : PyObj Matrix) : PyObj Matrix :=
  match o with
  | OTransform c =>
      OTransform (BasicTransform.Build (BasicTransform._name c) (BasicTransform._type c) v
                    (BasicTransform._trs c) (BasicTransform._l2world c)
                    (BasicTransform._l2cam c) (BasicTransform._parent c)
                    (BasicTransform._children c))
  | OCamera c =>
      OCamera (Camera.Build (Camera._name c) (Camera._type c) v (Camera._projMat c)
                 (Camera._root2cam c) (Camera._parent c))
  | ORenderMesh c =>
      ORenderMesh (RenderMesh.Build (RenderMesh._name c) (RenderMesh._type c) v
                     (RenderMesh._trs c) (RenderMesh._parent c) (RenderMesh._children c))
  | _ => o
  end.

(** [obj.update] with keyword arguments, dispatched on the class. *)
Definition Component_update {Matrix} (kwargs : gmap string Matrix) (o : PyObj Matrix)
  : Result unit * PyObj Matrix :=
  match o with
  | OTransform c => (Return tt, OTransform (BasicTransform.update c kwargs))
  | OCamera c => (Return tt, OCamera (Camera.update c kwargs))
  | ORenderMesh c => (fst (RenderMesh.update c kwargs), o)
  | _ => (Return tt, o)
  end.

(** [obj.getNumberOfChildren()], dispatched on the class. *)
Definition getNumberOfChildren {Matrix} (o : PyObj Matrix) : Result nat :=
  match o with
  | OTransform c => BasicTransform.getNumberOfChildren c
  | OCamera c => Camera.getNumberOfChildren c
  | ORenderMesh c => RenderMesh.getNumberOfChildren c
  | _ => Raise (AttributeError "getNumberOfChildren")
  end.

(** [Component.getChild(index)]: [return None], for every index. *)
Definition getChild {Matrix} (o : PyObj Matrix) (index : Z) : option ref := None.

(** What a client can call on a component: the methods of [Component] and of
    its three subclasses, and assignments to the properties they declare.
    [add], [remove] and [init] are [pass]. *)
Inductive ComponentCall (Matrix : Type) :=
| Cadd (object : ref)
| Cremove (object : ref)
| Cinit
| Cupdate (kwargs : gmap string Matrix)
| Cset_name (value : option string)
| Cset_type (value : option string)
| Cset_id (value : option Z)
| Cset_parent (value : ref)
| Cset (p : MatrixProperty) (value : Matrix).
Arguments Cadd {Matrix}.
Arguments Cremove {Matrix}.
Arguments Cinit {Matrix}.
Arguments Cupdate {Matrix}.
Arguments Cset_name {Matrix}.
Arguments Cset_type {Matrix}.
Arguments Cset_id {Matrix}.
Arguments Cset_parent {Matrix}.
Arguments Cset {Matrix}.

Definition component_call {Matrix} (c : ComponentCall Matrix) (o : PyObj Matrix)
  : Result unit * PyObj Matrix :=
  match c with
  | Cadd _ => (Return tt, o)
  | Cremove _ => (Return tt, o)
  | Cinit => (Return tt, o)
  | Cupdate kwargs => Component_update kwargs o
  | Cset_name v => (Return tt, set_name v o)
  | Cset_type v => (Return tt, set_type v o)
  | Cset_id v => (Return tt, set_id v o)
  | Cset_parent v => (Return tt, set_parent v o)
  | Cset p v => setprop p v o
  end.

(** A sequence of calls; the caller goes on after a call that raised. *)
Definition component_calls {Matrix} (cs : list (ComponentCall Matrix)) (o : PyObj Matrix)
  : PyObj Matrix :=
  foldl (λ o c, snd (component_call c o)) o cs.

(** A component as one of the three constructors leaves it. *)
Inductive fresh_component {Matrix} : PyObj Matrix → Prop :=
| fresh_transform identity self name type id :
    fresh_component (OTransform (BasicTransform.__init__ identity self name type id))
| fresh_camera identity self projMatrix name type id :
    fresh_component (OCamera (Camera.__init__ identity self projMatrix name type id))
| fresh_mesh identity self name type id :
    fresh_component (ORenderMesh (RenderMesh.__init__ identity self name type id)).

(** ** The rest of ECSSManager.py *)

Section Iterator.
Context {Matrix Iter : Type}.
(** [iter(entity)], that is [Entity.__iter__] of the absent [Entity.py]. *)
Variable Entity_iter : ref → Heap Matrix → Iter.

(** [createIterator(entity, dfs=True)]: without a [return] on the other
    paths the value is [None]. *)
Definition createIterator (entity : ref) (dfs : bool) (h : Heap Matrix)
    (self : ECSSManager.t) : option Iter * (Heap Matrix * ECSSManager.t) :=
  if isinstance_Entity h entity
  then if dfs then (Some (Entity_iter entity h), (h, self)) else (None, (h, self))
  else (None, (h, self)).
End Iterator.

(** The shape of an entry of [_entities_components]: the placeholder alone,
    or components only. *)
Definition entry_shape (value : list (option ref)) : Prop :=
  value = [None] ∨ (value ≠ [] ∧ Forall is_Some value).

(** [n] calls of [createSystem(system)] in a row. *)
Definition createSystem_times {Matrix} (n : nat) (system : ref)
    (st : Heap Matrix * ECSSManager.t) : Heap Matrix * ECSSManager.t :=
  Nat.iter n (λ st, snd (createSystem system (fst st) (snd st))) st.

(** What holds of the registry in every state the methods can reach. *)
Definition registry_wf (m : ECSSManager.t) : Prop :=
  (∀ e, e ∈ ECSSManager._entities m ↔ is_Some (ECSSManager._entities_components m !! e)) ∧
  (∀ e value, ECSSManager._entities_components m !! e = Some value → entry_shape value) ∧
  (∀ r, ECSSManager._root m = Some r → r ∈ ECSSManager._entities m) ∧
  ECSSManager._next_entity_id m = 0%Z.

(** The four lists of [m'] extend those of [m]. *)
Definition lists_grow (m m' : ECSSManager.t) : Prop :=
  ECSSManager._systems m `prefix_of` ECSSManager._systems m' ∧
  ECSSManager._components m `prefix_of` ECSSManager._components m' ∧
  ECSSManager._entities m `prefix_of` ECSSManager._entities m' ∧
  ECSSManager._cameras m `prefix_of` ECSSManager._cameras m'.

(** Every initialised manager of the process satisfies [P]. *)
Definition all_managers {Matrix} (P : ECSSManager.t → Prop) (w : World Matrix) : Prop :=
  ∀ self mgr, instances w !! self = Some (Some mgr) → P mgr.

(** The entry [addComponent] writes for a key whose entry was [value]. *)
Definition new_entry (component : ref) (value : list (option ref)) : list (option ref) :=
  match value with
  | None :: _ => <[0%nat := Some component]> value
  | _ => value ++ [Some component]
  end.

(** ** Theorems: components *)

Section ComponentFacts.
Context {Matrix : Type}.
Implicit Types (t : BasicTransform.t Matrix) (kwargs : gmap string Matrix).

Import BasicTransform.

Lemma update_l2world t kwargs :
  _l2world (update t kwargs) = default (_l2world t) (kwargs !! "l2world").
Proof. unfold update. by repeat case_match. Qed.

Lemma update_trs t kwargs :
  _trs (update t kwargs) = default (_trs t) (kwargs !! "trs").
Proof. unfold update. by repeat case_match. Qed.

Lemma update_l2cam t kwargs :
  _l2cam (update t kwargs) = default (_l2cam t) (kwargs !! "l2cam").
Proof. unfold update. by repeat case_match. Qed.

Lemma update_other_fields t kwargs :
  _name (update t kwargs) = _name t ∧ _type (update t kwargs) = _type t ∧
  _id (update t kwargs) = _id t ∧ _parent (update t kwargs) = _parent t ∧
  _children (update t kwargs) = _children t.
Proof. unfold update. by repeat case_match. Qed.

Lemma update_unrecognized t kwargs (k : string) (v : Matrix) :
  k ∉ ["l2world"; "trs"; "l2cam"] →
  update t (<[k := v]> kwargs) = update t kwargs.
Proof.
  intros Hk. unfold update.
  rewrite !lookup_insert_ne; [done | | |]; intros ->; apply Hk; set_solver.
Qed.

(** C8: [update] overwrites exactly the fields among [trs], [l2world] and
    [l2cam] whose option is present, with the value given; it leaves every
    other field as it was, and an option with any other name changes
    nothing.  [update] is a total function: it cannot fail. *)
Theorem update_overwrites_exactly_present t kwargs :
  _trs (update t kwargs) = default (_trs t) (kwargs !! "trs") ∧
  _l2world (update t kwargs) = default (_l2world t) (kwargs !! "l2world") ∧
  _l2cam (update t kwargs) = default (_l2cam t) (kwargs !! "l2cam") ∧
  (_name (update t kwargs) = _name t ∧ _type (update t kwargs) = _type t ∧
   _id (update t kwargs) = _id t ∧ _parent (update t kwargs) = _parent t ∧
   _children (update t kwargs) = _children t) ∧
  (∀ (k : string) (v : Matrix), k ∉ ["l2world"; "trs"; "l2cam"] →
     update t (<[k := v]> kwargs) = update t kwargs).
Proof.
  split; [apply update_trs|].
  split; [apply update_l2world|].
  split; [apply update_l2cam|].
  split; [apply update_other_fields | apply update_unrecognized].
Qed.

End ComponentFacts.

Section AcceptFacts.
Context {W : Type}.
Implicit Types (system : System W) (w : W) (k : CompClass).

Lemma call_method_present system name f self w :
  system !! name = Some f → call_method system name self w = f self w.
Proof. unfold call_method. intros H. by rewrite H. Qed.

Lemma call_method_absent system name self w :
  system !! name = None →
  call_method system name self w = (Raise (AttributeError name), w).
Proof. unfold call_method. intros H. by rewrite H. Qed.

(** A system that lacks one of the methods [accept] calls makes it fail. *)
Lemma accept_missing_method k self system w name :
  name ∈ methods_called k → system !! name = None →
  completes (fst (accept k self system w)) = false.
Proof.
  intros Hin Hnone. destruct k; simpl in Hin.
  - unfold accept, BasicTransform.accept, seq_stmt.
    destruct (call_method system "apply" self w) as [[[]|e] w1] eqn:Happ; [|done].
    apply list_elem_of_In in Hin. destruct Hin as [<-|[<-|[]]].
    + rewrite call_method_absent in Happ by done. by inversion Happ.
    + by rewrite call_method_absent.
  - apply list_elem_of_In in Hin. destruct Hin as [<-|[]].
    unfold accept, Camera.accept. by rewrite call_method_absent.
  - apply list_elem_of_In in Hin. destruct Hin as [<-|[]].
    unfold accept, RenderMesh.accept. by rewrite call_method_absent.
Qed.

(** [accept] makes no test of kinds.  On any object used as a system it
    completes whenever the object has every method that the component's
    class calls and those methods return. *)
Lemma accept_completes_when_methods_do k self system w :
  (∀ name, name ∈ methods_called k → is_Some (system !! name)) →
  (∀ name f c w', system !! name = Some f → completes (fst (f c w')) = true) →
  completes (fst (accept k self system w)) = true.
Proof.
  intros Hhas Hret.
  assert (Hcall : ∀ name w0, name ∈ methods_called k →
            completes (fst (call_method system name self w0)) = true).
  { intros name w0 Hin. destruct (Hhas name Hin) as [f Hf].
    rewrite (call_method_present _ _ f) by done. by eapply Hret. }
  destruct k; simpl in Hcall |- *.
  - unfold BasicTransform.accept, seq_stmt.
    pose proof (Hcall "apply" w ltac:(set_solver)) as H1.
    destruct (call_method system "apply" self w) as [[[]|e] w1]; [|done].
    apply Hcall. set_solver.
  - apply Hcall. set_solver.
  - apply Hcall. set_solver.
Qed.

End AcceptFacts.

Section SystemFacts.
Context {Matrix : Type}.
Implicit Types (h : Heap Matrix) (k : CompClass).

Lemma visitor_lookup (supports : string → CompClass → bool)
    (body : string → Method (Heap Matrix)) (name : string) :
  name = "apply" ∨ name = "applyCamera" →
  visitor supports body !! name
  = Some (λ c h, match class_of h c with
                 | Some k => if supports name k then body name c h else (Return tt, h)
                 | None => (Return tt, h)
                 end).
Proof.
  unfold visitor. intros [->| ->].
  - by rewrite lookup_insert_eq.
  - rewrite lookup_insert_ne by done. by rewrite lookup_singleton_eq.
Qed.

Lemma visitor_lookup_Some (supports : string → CompClass → bool)
    (body : string → Method (Heap Matrix)) (name : string) f :
  visitor supports body !! name = Some f →
  f = (λ c h, match class_of h c with
              | Some k => if supports name k then body name c h else (Return tt, h)
              | None => (Return tt, h)
              end).
Proof.
  intros Hf. assert (Hname : name = "apply" ∨ name = "applyCamera").
  { unfold visitor in Hf. apply lookup_insert_Some in Hf as [[<- _]|[_ Hf]]; [by left|].
    apply lookup_singleton_Some in Hf as [<- _]. by right. }
  rewrite (visitor_lookup supports body name Hname) in Hf. by injection Hf as <-.
Qed.

Lemma methods_called_are_offered k name :
  name ∈ methods_called k → name = "apply" ∨ name = "applyCamera".
Proof.
  intros Hin. apply list_elem_of_In in Hin.
  destruct k; simpl in Hin; intuition.
Qed.

(** C7: for every component and every system, [accept] completes.  When the
    system supports the component's kind under none of the operations its
    [accept] calls, the visit is a silent no-op: it returns and the scene is
    as before, whatever the bodies of the system would do.  In general it
    completes as soon as the bodies of the system return. *)
Theorem accept_tolerates_every_system (supports : string → CompClass → bool)
    (body : string → Method (Heap Matrix)) k (self : ref) h :
  class_of h self = Some k →
  ((∀ name, name ∈ methods_called k → supports name k = false) →
   accept k self (visitor supports body) h = (Return tt, h)) ∧
  ((∀ name c h', completes (fst (body name c h')) = true) →
   completes (fst (accept k self (visitor supports body) h)) = true).
Proof.
  intros Hk. split.
  - intros Hno.
    assert (Hcall : ∀ name, name ∈ methods_called k →
              call_method (visitor supports body) name self h = (Return tt, h)).
    { intros name Hin. unfold call_method.
      rewrite (visitor_lookup supports body name (methods_called_are_offered k name Hin)).
      by rewrite Hk, (Hno name Hin). }
    destruct k; simpl in Hcall |- *.
    + unfold BasicTransform.accept, seq_stmt.
      rewrite (Hcall "apply") by set_solver. apply Hcall. set_solver.
    + apply Hcall. set_solver.
    + apply Hcall. set_solver.
  - intros Hbody. apply accept_completes_when_methods_do.
    + intros name Hin.
      rewrite (visitor_lookup supports body name (methods_called_are_offered k name Hin)).
      by eexists.
    + intros name f c h' Hf. apply visitor_lookup_Some in Hf as ->.
      destruct (class_of h' c) as [k'|]; [|done].
      destruct (supports name k'); [apply Hbody | done].
Qed.

(** A [TransformSystem] visiting a transform runs its body on it. *)
Lemma TransformSystem_visits_transform (body : Method (Heap Matrix)) (self : ref) h :
  class_of h self = Some BasicTransformK → fst (body self h) = Return tt →
  accept BasicTransformK self (TransformSystem body) h = body self h.
Proof.
  intros Hk Hret. simpl. unfold BasicTransform.accept, seq_stmt, call_method, TransformSystem.
  rewrite !visitor_lookup by auto. rewrite Hk. simpl.
  destruct (body self h) as [r h1]. simpl in Hret. subst r.
  by destruct (class_of h1 self) as [[]|].
Qed.

(** A [CameraSystem] visiting a camera runs its body on it. *)
Lemma CameraSystem_visits_camera (body : Method (Heap Matrix)) (self : ref) h :
  class_of h self = Some CameraK →
  accept CameraK self (CameraSystem body) h = body self h.
Proof.
  intros Hk. simpl. unfold Camera.accept, call_method, CameraSystem.
  rewrite visitor_lookup by auto. by rewrite Hk.
Qed.

End SystemFacts.

(** C7, witness: a [RenderSystem] whose body would fail visits the transform
    [t1], a kind it does not support: nothing happens. *)
Lemma accept_tolerates_witness :
  accept BasicTransformK t1 (RenderSystem failing) scene0 = (Return tt, scene0).
Proof.
  refine (proj1 (accept_tolerates_every_system
                   (λ name k, bool_decide (name = "apply") && bool_decide (k = RenderMeshK))
                   (λ _, failing) BasicTransformK t1 scene0 _) _).
  - vm_compute. reflexivity.
  - intros name Hin. by rewrite andb_false_r.
Defined.

(** ** Theorems: the registry methods *)

Section MethodFacts.
Context {Matrix : Type}.
Variable add : ref → ref → Heap Matrix → Result unit * Heap Matrix.
Implicit Types (h : Heap Matrix) (self m : ECSSManager.t) (e c : ref).

Import ECSSManager.

Lemma attach_inv key c value h m r h' m' :
  attach add key c value h m = (r, (h', m')) →
  r ≠ Return None ∧ same_registry_frame m m' ∧
  _components m' = _components m ∧ _cameras m' = _cameras m ∧
  ∀ e, e ≠ key → _entities_components m' !! e = _entities_components m !! e.
Proof.
  unfold attach. destruct (add key c h) as [[[]|ex] h1]; intros [= <- <- <-].
  - split; [done|]. split; [done|]. split; [done|]. split; [done|].
    intros e Hne. simpl. by rewrite lookup_insert_ne.
  - done.
Qed.

Lemma for_el_Some key c k value rest h m out :
  for_el add key c k value rest h m = Some out →
  out = attach add key c value h m.
Proof.
  induction rest as [|el rest IH]; simpl; [done|].
  destruct (isinstance_class h el k); [done|]. by intros [= <-].
Qed.

(** The loop runs to its end exactly when every entry has the class of the
    new component ([None] has not). *)
Lemma for_el_None key c k value rest h m :
  for_el add key c k value rest h m = None ↔
  Forall (λ el, isinstance_class h el k = true) rest.
Proof.
  induction rest as [|el rest IH]; simpl.
  - split; [constructor | done].
  - destruct (isinstance_class h el k) eqn:Hel.
    + rewrite IH. split; [by constructor | by inversion 1].
    + split; [done | inversion 1; congruence].
Qed.

(** [addComponent] only ever appends to the global collections: whatever
    was in them stays. *)
Lemma addComponent_collections_grow e c h m :
  let m' := snd (snd (addComponent add e c h m)) in
  same_registry_frame m m' ∧
  (∃ l, _components m' = _components m ++ l) ∧
  (∃ l, _cameras m' = _cameras m ++ l).
Proof.
  unfold addComponent.
  destruct (isinstance_Entity h e); [|by repeat split; exists []; rewrite app_nil_r].
  destruct (class_of h c) as [k|]; [|by repeat split; exists []; rewrite app_nil_r].
  set (m1 := if bool_decide (k = CameraK) then _ else _).
  assert (Hm1 : same_registry_frame m m1 ∧
            (∃ l, _components m1 = _components m ++ l) ∧
            (∃ l, _cameras m1 = _cameras m ++ l)).
  { unfold m1. case_bool_decide; simpl.
    - repeat split. by exists []; rewrite app_nil_r. by eexists.
    - repeat split. by eexists. by exists []; rewrite app_nil_r. }
  destruct (_entities_components m1 !! e) as [value|]; [|done].
  destruct (for_el add e c k value value h m1) as [out|] eqn:Hloop; [|done].
  apply for_el_Some in Hloop. destruct out as [r [h' m']]. symmetry in Hloop.
  apply attach_inv in Hloop as (_ & (?&?&?&?) & Hc & Hcam & _).
  destruct Hm1 as ((?&?&?&?) & [l1 Hl1] & [l2 Hl2]). simpl.
  split; [unfold same_registry_frame; split_and!; congruence|].
  split; [exists l1 | exists l2]; congruence.
Qed.

(** When [addComponent] returns [None], the scene objects and the mapping
    are as before. *)
Lemma addComponent_None_inv e c h m :
  fst (addComponent add e c h m) = Return None →
  fst (snd (addComponent add e c h m)) = h ∧
  _entities_components (snd (snd (addComponent add e c h m))) = _entities_components m.
Proof.
  unfold addComponent.
  destruct (isinstance_Entity h e); [|done].
  destruct (class_of h c) as [k|]; [|done].
  set (m1 := if bool_decide (k = CameraK) then _ else _).
  assert (Hm1 : _entities_components m1 = _entities_components m).
  { unfold m1. by case_bool_decide. }
  destruct (_entities_components m1 !! e) as [value|]; [|done].
  destruct (for_el add e c k value value h m1) as [out|] eqn:Hloop; [|done].
  apply for_el_Some in Hloop. destruct out as [r [h' m']]. symmetry in Hloop.
  apply attach_inv in Hloop as (Hr & _). simpl. intros ->. done.
Qed.

(** An entity that is no key of the mapping gets nothing attached. *)
Lemma addComponent_no_key e c h m :
  _entities_components m !! e = None →
  fst (addComponent add e c h m) = Return None.
Proof.
  intros Hkey. unfold addComponent.
  destruct (isinstance_Entity h e); [|done].
  destruct (class_of h c) as [k|]; [|done].
  set (m1 := if bool_decide (k = CameraK) then _ else _).
  assert (Hm1 : _entities_components m1 = _entities_components m).
  { unfold m1. by case_bool_decide. }
  by rewrite Hm1, Hkey.
Qed.

(** The mapping entry of [e] changes only through a call on [e] itself. *)
Lemma addComponent_other_key e x c h m :
  e ≠ x →
  _entities_components (snd (snd (addComponent add x c h m))) !! e
  = _entities_components m !! e.
Proof.
  intros Hne. unfold addComponent.
  destruct (isinstance_Entity h x); [|done].
  destruct (class_of h c) as [k|]; [|done].
  set (m1 := if bool_decide (k = CameraK) then _ else _).
  assert (Hm1 : _entities_components m1 = _entities_components m).
  { unfold m1. by case_bool_decide. }
  destruct (_entities_components m1 !! x) as [value|]; [|by simpl; rewrite Hm1].
  destruct (for_el add x c k value value h m1) as [out|] eqn:Hloop;
    [|by simpl; rewrite Hm1].
  apply for_el_Some in Hloop. destruct out as [r [h' m']]. symmetry in Hloop.
  apply attach_inv in Hloop as (_ & _ & _ & _ & Hmap). simpl.
  by rewrite Hmap, Hm1.
Qed.

End MethodFacts.

Section RunFacts.
Context {Matrix : Type}.
Variable add : ref → ref → Heap Matrix → Result unit * Heap Matrix.
Implicit Types (w : World Matrix) (calls : list (Call Matrix)) (c : Call Matrix).

Import ECSSManager.

Lemma construct_instance w :
  ECSSManager_instance (snd (construct w)) = Some (fst (construct w)).
Proof. unfold construct, __new__. by destruct (ECSSManager_instance w) eqn:Hi. Qed.

Lemma construct_existing w r :
  ECSSManager_instance w = Some r → fst (construct w) = r.
Proof. unfold construct, __new__. by intros ->. Qed.

Lemma construct_first_is_new w :
  ECSSManager_instance w = None → instances w !! fst (construct w) = None.
Proof.
  unfold construct, __new__. intros ->. simpl.
  apply not_elem_of_dom, is_fresh.
Qed.

Lemma construct_initialises w :
  instances (snd (construct w)) !! fst (construct w) = Some (Some ECSSManager.__init__).
Proof.
  unfold construct. destruct (__new__ w) as [obj w1]. simpl.
  apply lookup_insert_eq.
Qed.

Lemma invoke_instance {X} self0
    (f : Heap Matrix → ECSSManager.t → X * (Heap Matrix * ECSSManager.t)) w :
  ECSSManager_instance (invoke self0 f w) = ECSSManager_instance w.
Proof.
  unfold invoke. destruct (instances w !! self0) as [[mgr|]|]; [|done..].
  by destruct (f (scene w) mgr) as [? [? ?]].
Qed.

Lemma run_call_instance c w r :
  ECSSManager_instance w = Some r → ECSSManager_instance (run_call add c w) = Some r.
Proof.
  intros Hi. destruct c; simpl; rewrite ?invoke_instance; try done.
  rewrite construct_instance. f_equal. by apply construct_existing.
Qed.

Lemma run_instance calls w r :
  ECSSManager_instance w = Some r → ECSSManager_instance (run add calls w) = Some r.
Proof.
  revert w. induction calls as [|c calls IH]; intros w Hi; [done|].
  simpl. apply IH. by apply run_call_instance.
Qed.

(** No call takes a manager object away. *)
Lemma run_call_keeps_objects c w r :
  is_Some (instances w !! r) → is_Some (instances (run_call add c w) !! r).
Proof.
  intros Hr.
  assert (Hinv : ∀ {X} self0
            (f : Heap Matrix → ECSSManager.t → X * (Heap Matrix * ECSSManager.t)),
            is_Some (instances (invoke self0 f w) !! r)).
  { intros X self0 f. unfold invoke.
    destruct (instances w !! self0) as [[mgr|]|]; [|done..].
    destruct (f (scene w) mgr) as [x [h' mgr']]. simpl.
    rewrite lookup_insert_is_Some. destruct (decide (self0 = r)); auto. }
  destruct c; simpl; try apply Hinv; [|done].
  unfold construct, __new__. destruct (ECSSManager_instance w) as [r0|]; simpl.
  - rewrite lookup_insert_is_Some. destruct (decide (r0 = r)); auto.
  - rewrite !lookup_insert_is_Some.
    destruct (decide (fresh (dom (instances w)) = r)); auto.
Qed.

Lemma run_keeps_objects calls w r :
  is_Some (instances w !! r) → is_Some (instances (run add calls w) !! r).
Proof.
  revert w. induction calls as [|c calls IH]; intros w Hr; [done|].
  simpl. apply IH. by apply run_call_keeps_objects.
Qed.

(** C9: the first construction creates the instance: a new object, which
    the class attribute then names and [__init__] has set up.  From then on
    the class attribute names that object whatever is called, and every
    later construction returns it and allocates no other object. *)
Theorem singleton_same_instance w calls :
  let m1 := fst (construct w) in
  let w1 := snd (construct w) in
  let w2 := run add calls w1 in
  (ECSSManager_instance w = None → instances w !! m1 = None) ∧
  ECSSManager_instance w1 = Some m1 ∧
  instances w1 !! m1 = Some (Some ECSSManager.__init__) ∧
  ECSSManager_instance w2 = Some m1 ∧
  fst (construct w2) = m1 ∧
  ECSSManager_instance (snd (construct w2)) = Some m1 ∧
  dom (instances (snd (construct w2))) = dom (instances w2).
Proof.
  intros m1 w1 w2.
  assert (H1 : ECSSManager_instance w1 = Some m1) by apply construct_instance.
  assert (H2 : ECSSManager_instance w2 = Some m1) by (by apply run_instance).
  assert (H3 : fst (construct w2) = m1) by (by apply construct_existing).
  split; [apply construct_first_is_new|].
  split; [done|]. split; [apply construct_initialises|].
  split; [done|]. split; [done|].
  split; [by rewrite construct_instance, H3|].
  assert (Hobj : is_Some (instances w2 !! m1)).
  { apply run_keeps_objects. unfold w1, m1. rewrite construct_initialises. by eexists. }
  unfold construct, __new__. rewrite H2. simpl.
  by apply dom_insert_lookup_L.
Qed.

(** C10: every construction, the later ones included, runs [__init__] on the
    instance it returns: all collections are empty again, whatever had been
    registered. *)
Theorem construct_resets_registry w calls :
  let w1 := run add calls (snd (construct w)) in
  fst (construct w1) = fst (construct w) ∧
  instances (snd (construct w1)) !! fst (construct w)
  = Some (Some {| _systems := []; _components := []; _entities := []; _cameras := [];
                  _entities_components := ∅; _next_entity_id := 0; _root := None |}).
Proof.
  intros w1.
  assert (Hsame : fst (construct w1) = fst (construct w)).
  { apply construct_existing, run_instance, construct_instance. }
  split; [done|]. rewrite <- Hsame. apply construct_initialises.
Qed.

Lemma invoke_unregistered {X} e self0
    (f : Heap Matrix → ECSSManager.t → X * (Heap Matrix * ECSSManager.t)) w :
  (∀ h mgr, _entities_components mgr !! e = None →
            _entities_components (snd (snd (f h mgr))) !! e = None) →
  unregistered e w → unregistered e (invoke self0 f w).
Proof.
  intros Hf Hw. unfold invoke.
  destruct (instances w !! self0) as [[mgr|]|] eqn:Hself; [|done..].
  specialize (Hf (scene w) mgr (Hw _ _ Hself)).
  destruct (f (scene w) mgr) as [x [h' mgr']]. simpl in Hf.
  intros self mgr2. simpl. rewrite lookup_insert.
  case_decide; [by intros [= <-] | apply Hw].
Qed.

Lemma run_call_unregistered e c w :
  (∀ self, c ≠ CallCreateEntity self e) →
  unregistered e w → unregistered e (run_call add c w).
Proof.
  intros Hc Hw. destruct c; simpl.
  - unfold construct. destruct (__new__ w) as [obj w1] eqn:Hnew. simpl.
    assert (Hw1 : unregistered e w1).
    { unfold __new__ in Hnew. destruct (ECSSManager_instance w); injection Hnew as <- <-;
        [done|]. intros self mgr. simpl. rewrite lookup_insert.
      case_decide; [done | apply Hw]. }
    intros self mgr. simpl. rewrite lookup_insert.
    case_decide; [by intros [= <-] | apply Hw1].
  - apply invoke_unregistered; [|done]. intros h mgr Hmgr. unfold createEntity.
    destruct (h !! entity) as [[ent| | | | |]|] eqn:Hent; simpl; try done.
    assert (entity ≠ e) by (intros ->; by eapply Hc).
    case_bool_decide; simpl; by rewrite lookup_insert_ne.
  - apply invoke_unregistered; [|done]. intros h mgr Hmgr. unfold createSystem.
    by destruct (isinstance_System h system).
  - apply invoke_unregistered; [|done]. intros h mgr Hmgr.
    destruct (decide (e = entity)) as [<-|Hne].
    + pose proof (addComponent_no_key add e component h mgr Hmgr) as Hret.
      apply addComponent_None_inv in Hret as [_ ->]. done.
    + by rewrite addComponent_other_key.
  - apply invoke_unregistered; [|done]. intros h mgr Hmgr. unfold addEntityChild.
    repeat case_match; done.
  - apply invoke_unregistered; [|done]. intros h mgr Hmgr. unfold traverse_visit.
    destruct (isinstance_System h system); [destruct iterator|]; done.
  - done.
Qed.

Lemma run_unregistered e calls w :
  never_registered e calls → unregistered e w → unregistered e (run add calls w).
Proof.
  revert w. induction calls as [|c calls IH]; intros w Hnever Hw; [done|].
  simpl. apply IH.
  - intros self Hin. apply (Hnever self). by right.
  - apply run_call_unregistered; [|done].
    intros self ->. apply (Hnever self). by left.
Qed.

End RunFacts.

(** ** Theorems: the claims about the registry *)

Section RegistryClaims.
Context {Matrix : Type}.
Implicit Types (h : Heap Matrix) (m : ECSSManager.t).

Import ECSSManager.

(** When every recorded component of [e] has the class of [c], the loop of
    [addComponent] runs to its end: [c] joins the global collection and
    nothing else happens.  Holds for any [Entity.add], which is not called. *)
Lemma addComponent_all_same_class add e c k value h m :
  isinstance_Entity h e = true → class_of h c = Some k → k ≠ CameraK →
  _entities_components m !! e = Some value →
  Forall (λ el, isinstance_class h el k = true) value →
  addComponent add e c h m
  = (Return None, (h, set_components (_components m ++ [c]) m)).
Proof.
  intros He Hc Hk Hval Hall. unfold addComponent. rewrite He, Hc.
  rewrite bool_decide_eq_false_2 by done. simpl. rewrite Hval.
  by rewrite (proj2 (for_el_None add e c k value value h _) Hall).
Qed.

(** [traverse_visit] calls no [accept] and changes nothing, whatever it is
    given. *)
Lemma traverse_visit_no_call system iterator h m :
  snd (fst (traverse_visit system iterator h m)) = [] ∧
  snd (traverse_visit system iterator h m) = (h, m).
Proof.
  unfold traverse_visit.
  destruct (isinstance_System h system); [destruct iterator|]; done.
Qed.

(** C3, as the code has it: registering the same entity a second time does
    not fail.  The call returns the entity, the scene is untouched and the
    entity is appended to the list of entities once more. *)
Theorem createEntity_twice_succeeds h m e ent :
  h !! e = Some (OEntity ent) →
  let st1 := snd (createEntity e h m) in
  let out := createEntity e (fst st1) (snd st1) in
  fst out = Return (Some e) ∧ fst (snd out) = h ∧
  _entities (snd (snd out)) = _entities m ++ [e; e].
Proof.
  intros He. unfold createEntity. rewrite He. simpl. rewrite He. simpl.
  split; [done|]. split; [done|].
  repeat case_bool_decide; simpl; by rewrite <- app_assoc.
Qed.

(** C4, as the code has it: for an entity that no call of [createEntity]
    has registered since the process started, [addComponent] does not fail.
    It returns [None]; the scene objects and the mapping from entities to
    components are as before. *)
Theorem addComponent_never_registered_returns_None
    (add : ref → ref → Heap Matrix → Result unit * Heap Matrix)
    h calls e c self mgr :
  never_registered e calls →
  instances (run add calls (start h)) !! self = Some (Some mgr) →
  let w := run add calls (start h) in
  let out := addComponent add e c (scene w) mgr in
  fst out = Return None ∧ fst (snd out) = scene w ∧
  _entities_components (snd (snd out)) = _entities_components mgr.
Proof.
  intros Hnever Hself w out.
  assert (Hkey : _entities_components mgr !! e = None).
  { eapply (run_unregistered add e calls (start h)); [done| |exact Hself].
    intros s0 m0. unfold start. simpl. by rewrite lookup_empty. }
  pose proof (addComponent_no_key add e c (scene w) mgr Hkey) as Hret.
  split; [done|]. by apply addComponent_None_inv.
Qed.




End RegistryClaims.

(** ** The claims on the concrete scene *)

(** C1: [E] owns the transform [t1]; a second transform [t2] is added.  The
    loop finds only an entry of the class of [t2], rebinds its loop variable
    and ends: the call returns [None], [E] still carries [t1] and not [t2],
    and the global collection holds the old instance next to the new one. *)
Theorem addComponent_second_transform_not_replaced :
  let out := addComponent Entity_add E t2 (fst with_t1) (snd with_t1) in
  fst out = Return None ∧
  ECSSManager._entities_components (snd (snd out)) !! E = Some [Some t1] ∧
  components_of (fst (snd out)) E = [t1] ∧
  ECSSManager._components (snd (snd out)) = [t1; t2].
Proof. vm_compute. done. Qed.

(** With a camera recorded before the transform, the first entry is of
    another class: [t2] is appended and [E] carries two transforms. *)
Lemma addComponent_second_transform_appended :
  let out := addComponent Entity_add E t2 (fst with_cam_t1) (snd with_cam_t1) in
  fst out = Return (Some t2) ∧
  ECSSManager._entities_components (snd (snd out)) !! E
  = Some [Some cam; Some t1; Some t2] ∧
  ECSSManager._components (snd (snd out)) = [t1; t2].
Proof. vm_compute. done. Qed.

(** C2: a registered system and the entity [E], which carries [t1].  The
    specification's traversal calls [t1.accept(sys)]; [traverse_visit]
    raises [TypeError] from [issubclass] and has called nothing. *)
Theorem traverse_visit_calls_no_accept :
  spec_traverseAndVisit (fst with_t1) sys E = [(t1, sys)] ∧
  fst (traverse_visit sys (ArgObject E) (fst with_t1) (snd with_t1))
  = (Raise (TypeError "issubclass() arg 1 must be a class"), []) ∧
  fst (traverse_visit sys (ArgClass true) (fst with_t1) (snd with_t1))
  = (Return None, []).
Proof. vm_compute. done. Qed.

(** C3, counterexample: [createEntity(E)] on a registry that has [E]. *)
Lemma createEntity_twice_no_DuplicateRegistration :
  fst (createEntity E (fst registered) (snd registered)) = Return (Some E) ∧
  fst (createEntity E (fst registered) (snd registered))
  ≠ Raise (Raised "DuplicateRegistration").
Proof. split; [vm_compute; reflexivity | vm_compute; discriminate]. Qed.

(** C3, witness. *)
Lemma createEntity_twice_witness :
  let st1 := snd (createEntity E scene0 ECSSManager.__init__) in
  let out := createEntity E (fst st1) (snd st1) in
  fst out = Return (Some E) ∧ fst (snd out) = scene0 ∧
  ECSSManager._entities (snd (snd out)) = ECSSManager._entities ECSSManager.__init__ ++ [E; E].
Proof.
  apply (createEntity_twice_succeeds scene0 ECSSManager.__init__ E
           (Entity.__init__ E "E" "Entity" 1)).
  vm_compute. reflexivity.
Defined.

(** C4, counterexample: [F] was never registered. *)
Lemma addComponent_unregistered_no_UnknownEntity :
  fst (addComponent Entity_add F t2 (fst with_t1) (snd with_t1)) = Return None ∧
  fst (addComponent Entity_add F t2 (fst with_t1) (snd with_t1))
  ≠ Raise (Raised "UnknownEntity").
Proof. split; [vm_compute; reflexivity | vm_compute; discriminate]. Qed.

(** C4, witness: the calls that build [with_t1] never register [F]. *)
Lemma addComponent_never_registered_witness :
  let w := run Entity_add calls0 (start scene0) in
  let out := addComponent Entity_add F t2 (scene w) (snd with_t1) in
  fst out = Return None ∧ fst (snd out) = scene w ∧
  ECSSManager._entities_components (snd (snd out))
  = ECSSManager._entities_components (snd with_t1).
Proof.
  apply (addComponent_never_registered_returns_None Entity_add scene0 calls0 F t2
           1%positive (snd with_t1)).
  - intros self Hin. apply list_elem_of_In in Hin. simpl in Hin.
    destruct Hin as [H|[H|[H|[]]]]; discriminate H.
  - vm_compute. reflexivity.
Defined.





(** Two checks of [createEntity] on a one-entity scene: the name is compared
    without regard to case, and only ["root"] makes the entity the root. *)
Example createEntity_root :
  ECSSManager._root (snd (snd (createEntity E
    (<[E := OEntity (Entity.__init__ E "RooT" "Entity" 0)]> (∅ : Heap Z))
    ECSSManager.__init__))) = Some E.
Proof. vm_compute. reflexivity. Qed.

Example createEntity_not_root :
  ECSSManager._root (snd registered) = None ∧
  ECSSManager._entities_components (snd registered) !! E = Some [None].
Proof. vm_compute. done. Qed.

(** The first component of an entity takes the place of the initial [None]
    entry, and [Entity.add] records it on the entity. *)
Example addComponent_first :
  ECSSManager._entities_components (snd with_t1) !! E = Some [Some t1] ∧
  components_of (fst with_t1) E = [t1] ∧
  ECSSManager._components (snd with_t1) = [t1].
Proof. vm_compute. done. Qed.

(** ** More about the components *)

Section MoreComponentFacts.
Context {Matrix : Type}.

(** X1: two updates in a row are one update with the options of both, the
    later ones winning; in particular an update applied twice is the update
    applied once. *)
Theorem update_twice_is_update_of_union (t : BasicTransform.t Matrix)
    (kwargs1 kwargs2 : gmap string Matrix) :
  BasicTransform.update (BasicTransform.update t kwargs1) kwargs2
  = BasicTransform.update t (kwargs2 ∪ kwargs1) ∧
  BasicTransform.update (BasicTransform.update t kwargs1) kwargs1
  = BasicTransform.update t kwargs1.
Proof.
  assert (Hcomp : ∀ k1 k2 : gmap string Matrix,
            BasicTransform.update (BasicTransform.update t k1) k2
            = BasicTransform.update t (k2 ∪ k1)).
  { intros k1 k2. unfold BasicTransform.update. rewrite !lookup_union.
    destruct (k1 !! "l2world"), (k1 !! "trs"), (k1 !! "l2cam"),
             (k2 !! "l2world"), (k2 !! "trs"), (k2 !! "l2cam"); reflexivity. }
  split; [apply Hcomp|]. rewrite Hcomp. by rewrite (idemp_L (∪)).
Qed.

(** X2: [Camera.update] knows the option [root2cam] only.  The projection
    matrix and every other attribute are never changed by it, and any other
    option, [projMat] included, is ignored. *)
Theorem Camera_update_only_root2cam (c : Camera.t Matrix) (kwargs : gmap string Matrix) :
  Camera._root2cam (Camera.update c kwargs)
  = default (Camera._root2cam c) (kwargs !! "root2cam") ∧
  Camera._projMat (Camera.update c kwargs) = Camera._projMat c ∧
  (Camera._name (Camera.update c kwargs) = Camera._name c ∧
   Camera._type (Camera.update c kwargs) = Camera._type c ∧
   Camera._id (Camera.update c kwargs) = Camera._id c ∧
   Camera._parent (Camera.update c kwargs) = Camera._parent c) ∧
  (∀ (k : string) (v : Matrix), k ≠ "root2cam" →
     Camera.update c (<[k := v]> kwargs) = Camera.update c kwargs).
Proof.
  unfold Camera.update. split_and!; try by destruct (kwargs !! "root2cam").
  intros k v Hk. by rewrite lookup_insert_ne.
Qed.

(** X3: [root2cam] cannot be assigned.  The assignment raises
    [AttributeError] and leaves the camera as it was; of the calls [add],
    [remove], [init], [update] and the assignments to the declared
    properties, only an assignment to [orthoroot2camMat] or an [update]
    with the option [root2cam] changes what [root2cam] reads, and the two
    do the same. *)
Theorem Camera_root2cam_is_read_only (c : Camera.t Matrix) (v : Matrix) :
  setprop P_root2cam v (OCamera c) = (Raise (AttributeError "root2cam"), OCamera c) ∧
  getprop P_root2cam (snd (setprop P_orthoroot2camMat v (OCamera c))) = Some v ∧
  setprop P_orthoroot2camMat v (OCamera c)
  = Component_update {[ "root2cam" := v ]} (OCamera c) ∧
  (∀ call : ComponentCall Matrix,
     getprop P_root2cam (snd (component_call call (OCamera c)))
     ≠ getprop P_root2cam (OCamera c) →
     (∃ v', call = Cset P_orthoroot2camMat v') ∨
     (∃ kwargs, call = Cupdate kwargs ∧ is_Some (kwargs !! "root2cam"))).
Proof.
  split; [done|]. split; [done|]. split.
  - simpl. unfold Camera.update. by rewrite lookup_singleton_eq.
  - intros call Hchg. destruct call as [| | |kwargs| | | | |p v']; simpl in Hchg; try done.
    + right. exists kwargs. split; [done|]. unfold Camera.update in Hchg.
      destruct (kwargs !! "root2cam"); [by eexists | done].
    + destruct p; simpl in Hchg; try done. left. by eexists.
Qed.

(** X4: iterating over a component never ends.  Every round binds [None],
    however many rounds are run. *)
Theorem for_in_component_never_ends (fuel : nat) (comp : ref) :
  for_in fuel (Component_iter comp) = (replicate fuel None, false).
Proof.
  generalize (Component_iter comp). induction fuel as [|n IH]; intros it; [done|].
  simpl. by rewrite IH.
Qed.

Lemma component_call_children (call : ComponentCall Matrix) (o : PyObj Matrix) :
  getNumberOfChildren (snd (component_call call o)) = getNumberOfChildren o.
Proof.
  destruct call as [| | |kwargs| | | | |p v]; destruct o; try done.
  - simpl. unfold BasicTransform.getNumberOfChildren, BasicTransform.update.
    by repeat case_match.
  - by destruct p.
  - by destruct p.
Qed.

(** X5: no call on a component changes what [getNumberOfChildren] gives.
    On a component as its constructor leaves it, and after any calls, it is
    [0] for a transform and a mesh and an [AttributeError] for a camera. *)
Theorem getNumberOfChildren_of_component (o : PyObj Matrix)
    (calls : list (ComponentCall Matrix)) :
  fresh_component o →
  getNumberOfChildren (component_calls calls o)
  = match o with
    | OCamera _ => Raise (AttributeError "_children")
    | _ => Return 0%nat
    end.
Proof.
  intros Hfresh.
  assert (Hsame : getNumberOfChildren (component_calls calls o) = getNumberOfChildren o).
  { revert o Hfresh. induction calls as [|call calls IH]; intros o _; [done|].
    simpl. unfold component_calls in IH.
    transitivity (getNumberOfChildren (snd (component_call call o))).
    - clear IH. generalize (snd (component_call call o)). intros o'.
      revert o'. induction calls as [|c2 cs IH2]; intros o'; [done|].
      simpl. rewrite IH2. apply component_call_children.
    - apply component_call_children. }
  rewrite Hsame. by destruct Hfresh.
Qed.

Lemma component_call_mesh (call : ComponentCall Matrix) (mesh : RenderMesh.t Matrix) :
  ∃ mesh', snd (component_call call (ORenderMesh mesh)) = ORenderMesh mesh' ∧
           RenderMesh._trs mesh' = RenderMesh._trs mesh.
Proof. destruct call as [| | |kwargs| | | | |p v]; try destruct p; by eexists. Qed.

(** X6: after any sequence of the calls [add], [remove], [init], [update]
    and assignments to the declared properties, a mesh still has the matrix
    its constructor gave it.  [update] takes no option: with any keyword
    argument it raises [TypeError] and leaves the mesh as it is; and the
    class declares no property for [_trs]. *)
Theorem RenderMesh_trs_stays_identity (identity : Matrix) (self : ref)
    (name type : option string) (id : option Z) (calls : list (ComponentCall Matrix)) :
  ∃ mesh',
    component_calls calls (ORenderMesh (RenderMesh.__init__ identity self name type id))
    = ORenderMesh mesh' ∧
    RenderMesh._trs mesh' = identity ∧
    (∀ kwargs : gmap string Matrix, kwargs ≠ ∅ →
       component_call (Cupdate kwargs) (ORenderMesh mesh')
       = (Raise (TypeError "update() got an unexpected keyword argument"),
          ORenderMesh mesh')).
Proof.
  assert (Hrun : ∀ mesh : RenderMesh.t Matrix,
            ∃ mesh', component_calls calls (ORenderMesh mesh) = ORenderMesh mesh' ∧
                     RenderMesh._trs mesh' = RenderMesh._trs mesh).
  { induction calls as [|call calls IH]; intros mesh; [by eexists|].
    simpl. destruct (component_call_mesh call mesh) as (mesh1 & -> & Htrs).
    destruct (IH mesh1) as (mesh' & Hrun & Htrs'). exists mesh'.
    split; [exact Hrun | congruence]. }
  destruct (Hrun (RenderMesh.__init__ identity self name type id)) as (mesh' & Hcalls & Htrs).
  exists mesh'. split; [done|]. split; [done|].
  intros kwargs Hne. simpl. unfold RenderMesh.update.
  by rewrite bool_decide_eq_false_2.
Qed.

End MoreComponentFacts.

(** X5, witness: a camera after an update and an assignment. *)
Lemma getNumberOfChildren_witness :
  getNumberOfChildren
    (component_calls [Cupdate {[ "root2cam" := 2%Z ]}; Cset P_projMat 3%Z; Cadd t1]
       (OCamera (Camera.__init__ 1%Z cam 1%Z (Some "cam") None None)))
  = Raise (AttributeError "_children").
Proof.
  apply (getNumberOfChildren_of_component
           (OCamera (Camera.__init__ 1%Z cam 1%Z (Some "cam") None None))).
  constructor.
Defined.

(** ** More about the registry methods *)

Section MoreMethodFacts.
Context {Matrix : Type}.
Variable add : ref → ref → Heap Matrix → Result unit * Heap Matrix.
Implicit Types (h : Heap Matrix) (m : ECSSManager.t) (e c : ref).

Import ECSSManager.

(** The mapping after [addComponent]: as before, or with the entry of the
    entity rewritten. *)
Lemma addComponent_mapping e c h m :
  _entities_components (snd (snd (addComponent add e c h m))) = _entities_components m ∨
  ∃ value, _entities_components m !! e = Some value ∧
           _entities_components (snd (snd (addComponent add e c h m)))
           = <[e := new_entry c value]> (_entities_components m).
Proof.
  unfold addComponent.
  destruct (isinstance_Entity h e); [|by left].
  destruct (class_of h c) as [k|]; [|by left].
  set (m1 := if bool_decide (k = CameraK) then _ else _).
  assert (Hm1 : _entities_components m1 = _entities_components m).
  { unfold m1. by case_bool_decide. }
  destruct (_entities_components m1 !! e) as [value|] eqn:Hval; [|by left].
  destruct (for_el add e c k value value h m1) as [out|] eqn:Hloop; [|by left].
  apply for_el_Some in Hloop. subst out. unfold attach.
  destruct (add e c h) as [[[]|ex] h1]; [|by left].
  right. exists value. split; [by rewrite <- Hm1|].
  cbn [snd _entities_components set_entities_components]. by rewrite Hm1.
Qed.

(** X7: when the entity is registered and [Entity.add] returns, the new
    component is attached exactly when some recorded entry, the placeholder
    [None] included, is not of its class.  If all entries are of its class
    the call returns [None] and changes neither scene nor mapping. *)
Theorem addComponent_attaches_iff e c k value h m :
  isinstance_Entity h e = true → class_of h c = Some k →
  _entities_components m !! e = Some value →
  fst (add e c h) = Return tt →
  let out := addComponent add e c h m in
  (Forall (λ el, isinstance_class h el k = true) value ∧
   fst out = Return None ∧ fst (snd out) = h ∧
   _entities_components (snd (snd out)) = _entities_components m) ∨
  (Exists (λ el, isinstance_class h el k = false) value ∧
   fst out = Return (Some c) ∧ fst (snd out) = snd (add e c h) ∧
   _entities_components (snd (snd out))
   = <[e := new_entry c value]> (_entities_components m)).
Proof.
  intros He Hc Hval Hadd out. unfold out, addComponent. rewrite He, Hc.
  set (m1 := if bool_decide (k = CameraK) then _ else _).
  assert (Hm1 : _entities_components m1 = _entities_components m).
  { unfold m1. by case_bool_decide. }
  rewrite Hm1, Hval.
  destruct (for_el add e c k value value h m1) as [o|] eqn:Hloop.
  - right. split.
    + assert (Hnot : ¬ Forall (λ el, isinstance_class h el k = true) value).
      { intros Hall. apply (for_el_None add e c k value value h m1) in Hall. congruence. }
      apply not_Forall_Exists in Hnot; [|intros el; apply _].
      eapply Exists_impl; [exact Hnot|]. simpl. intros el Hel.
      by destruct (isinstance_class h el k).
    + apply for_el_Some in Hloop. subst o. unfold attach.
      destruct (add e c h) as [r h1]. simpl in Hadd. subst r.
      split; [done|]. split; [done|].
      cbn [snd _entities_components set_entities_components]. by rewrite Hm1.
  - left. apply for_el_None in Hloop.
    split; [done|]. split; [done|]. split; [done|]. exact Hm1.
Qed.

(** X8: with an entity and a component as arguments, the component joins
    exactly one global collection, the cameras for a camera and the
    components otherwise, whether or not it gets attached.  With any other
    argument the call changes nothing and returns [None]. *)
Theorem addComponent_global_collections e c h m :
  let m' := snd (snd (addComponent add e c h m)) in
  match isinstance_Entity h e, class_of h c with
  | true, Some CameraK =>
      _cameras m' = _cameras m ++ [c] ∧ _components m' = _components m
  | true, Some _ =>
      _components m' = _components m ++ [c] ∧ _cameras m' = _cameras m
  | _, _ => addComponent add e c h m = (Return None, (h, m))
  end.
Proof.
  unfold addComponent.
  destruct (isinstance_Entity h e); [|done].
  destruct (class_of h c) as [k|]; [|done].
  set (m1 := if bool_decide (k = CameraK) then _ else _).
  assert (Hgoal : ∀ m2, _cameras m2 = _cameras m1 → _components m2 = _components m1 →
            match k with
            | CameraK => _cameras m2 = _cameras m ++ [c] ∧ _components m2 = _components m
            | _ => _components m2 = _components m ++ [c] ∧ _cameras m2 = _cameras m
            end).
  { intros m2 -> ->. unfold m1. by destruct k. }
  destruct (_entities_components m1 !! e) as [value|]; [|by apply Hgoal].
  destruct (for_el add e c k value value h m1) as [[r [h' m']]|] eqn:Hloop;
    [|by apply Hgoal].
  apply for_el_Some in Hloop. symmetry in Hloop.
  apply attach_inv in Hloop as (_ & _ & Hcomp & Hcam & _). by apply Hgoal.
Qed.

(** X9: right after [createEntity(e)] the entry of [e] is the placeholder,
    whatever had been recorded for [e] before, so the next component is
    always attached and takes the place of the placeholder. *)
Theorem addComponent_after_createEntity e ent c k h m :
  h !! e = Some (OEntity ent) → class_of h c = Some k →
  fst (add e c h) = Return tt →
  let st := snd (createEntity e h m) in
  let out := addComponent add e c (fst st) (snd st) in
  _entities_components (snd st) !! e = Some [None] ∧
  fst out = Return (Some c) ∧
  _entities_components (snd (snd out)) !! e = Some [Some c].
Proof.
  intros He Hc Hadd st out.
  assert (Hst : fst st = h ∧ _entities_components (snd st) !! e = Some [None]).
  { unfold st, createEntity. rewrite He. simpl.
    split; [done|]. case_bool_decide; simpl; apply lookup_insert_eq. }
  destruct Hst as [Hh Hentry]. split; [done|].
  assert (Hent : isinstance_Entity h e = true) by (unfold isinstance_Entity; by rewrite He).
  unfold out. rewrite Hh. unfold addComponent. rewrite Hent, Hc.
  set (m1 := if bool_decide (k = CameraK) then _ else _).
  assert (Hm1 : _entities_components m1 = _entities_components (snd st)).
  { unfold m1. by case_bool_decide. }
  rewrite Hm1, Hentry. simpl. unfold attach.
  destruct (add e c h) as [r h1]. simpl in Hadd. subst r.
  split; [done|]. cbn [snd _entities_components set_entities_components].
  apply lookup_insert_eq.
Qed.

(** X10: [createSystem] records a system at every call, also one it has
    recorded already, and ignores what is no system; it always leaves the
    scene and everything else in the registry alone. *)
Theorem createSystem_records_every_call h m (s : ref) (n : nat) :
  let st := createSystem_times n s (h, m) in
  fst st = h ∧
  _systems (snd st)
  = _systems m ++ (if isinstance_System h s then replicate n s else []) ∧
  _entities (snd st) = _entities m ∧ _components (snd st) = _components m ∧
  _cameras (snd st) = _cameras m ∧
  _entities_components (snd st) = _entities_components m ∧ _root (snd st) = _root m ∧
  _next_entity_id (snd st) = _next_entity_id m.
Proof.
  induction n as [|n IH]; simpl.
  - destruct (isinstance_System h s); by rewrite app_nil_r.
  - unfold createSystem_times in *. simpl in *.
    destruct (Nat.iter n _ (h, m)) as [h1 m1]. simpl in *.
    destruct IH as (-> & Hs & He & Hc & Hcam & Hmap & Hroot & Hid).
    unfold createSystem. destruct (isinstance_System h s); simpl.
    + rewrite Hs. split; [done|]. split; [|done].
      rewrite <- app_assoc. f_equal.
      change (s :: replicate n s) with (replicate (S n) s).
      by rewrite replicate_S_end.
    + done.
Qed.

(** X11: [addEntityChild] never touches the registry, so it registers no
    child.  When an argument is no entity, or the child's parent already is
    the given parent, it returns [None] and the scene is as before, whatever
    [Entity.add] would do.  Otherwise the scene is what [Entity.add] leaves
    and the call raises what [Entity.add] raises. *)
Theorem addEntityChild_registry_untouched (p c : ref) h m :
  let out := addEntityChild add p c h m in
  snd (snd out) = m ∧
  (isinstance_Entity h p = false ∨ isinstance_Entity h c = false ∨
   (∃ ec, h !! c = Some (OEntity ec) ∧ Entity.getParent ec = p) →
   out = (Return None, (h, m))) ∧
  (∀ ec, isinstance_Entity h p = true → h !! c = Some (OEntity ec) →
         Entity.getParent ec ≠ p →
         fst (snd out) = snd (add p c h) ∧
         fst out = match fst (add p c h) with
                   | Return _ => Return None
                   | Raise ex => Raise ex
                   end).
Proof.
  unfold addEntityChild, isinstance_Entity. split; [|split].
  - destruct (h !! p) as [[ep| | | | |]|]; try done.
    destruct (h !! c) as [[ec| | | | |]|]; try done.
    case_bool_decide; [|done]. by destruct (add p c h) as [[[]|ex] h1].
  - intros [Hp|[Hc|(ec & Hc & Hpar)]].
    + by destruct (h !! p) as [[ep| | | | |]|].
    + destruct (h !! p) as [[ep| | | | |]|]; try done.
      by destruct (h !! c) as [[ec| | | | |]|].
    + rewrite Hc. destruct (h !! p) as [[ep| | | | |]|]; try done.
      by rewrite bool_decide_eq_false_2 by auto.
  - intros ec Hp Hc Hpar. rewrite Hc.
    destruct (h !! p) as [[ep| | | | |]|]; try done.
    rewrite bool_decide_eq_true_2 by done.
    by destruct (add p c h) as [[[]|ex] h1].
Qed.

(** [createIterator] gives an iterator only for an entity and a true [dfs];
    otherwise its value is [None], without an error.  It never changes the
    registry or the scene. *)
Lemma createIterator_only_depth_first {Iter : Type}
    (Entity_iter : ref → Heap Matrix → Iter) e (dfs : bool) h m :
  snd (createIterator Entity_iter e dfs h m) = (h, m) ∧
  (is_Some (fst (createIterator Entity_iter e dfs h m))
   ↔ isinstance_Entity h e = true ∧ dfs = true).
Proof.
  unfold createIterator.
  destruct (isinstance_Entity h e), dfs; simpl; (split; [done|]);
    split; try (intros [? ?]; done); try (intros [? ?]; discriminate); by eauto.
Qed.

End MoreMethodFacts.

(** ** Invariants of the registry and of the process *)

Section Invariants.
Context {Matrix : Type}.
Variable add : ref → ref → Heap Matrix → Result unit * Heap Matrix.
Implicit Types (h : Heap Matrix) (m : ECSSManager.t) (w : World Matrix).

Import ECSSManager.

Lemma new_entry_shape (c : ref) (value : list (option ref)) :
  entry_shape value → entry_shape (new_entry c value).
Proof.
  intros [->|[Hne Hall]]; right.
  - split; [done|]. by repeat constructor.
  - destruct value as [|[x|] rest]; [done| |].
    + unfold new_entry. split; [done|]. apply Forall_app_2; [done|]. by repeat constructor.
    + inversion Hall as [|? ? Hnone _]. by destruct Hnone.
Qed.

Lemma createEntity_wf (e : ref) h m :
  registry_wf m → registry_wf (snd (snd (createEntity e h m))).
Proof.
  intros (Hkeys & Hshape & Hroot & Hid). unfold createEntity.
  destruct (h !! e) as [[ent| | | | |]|]; try done.
  assert (Hwf : ∀ r, (r = _root m ∨ r = Some e) →
     registry_wf (set_root r (set_entities_components
        (<[e := [None]]> (_entities_components m))
        (set_entities (_entities m ++ [e]) m)))).
  { intros r Hr. split_and!; simpl.
    - intros x. rewrite elem_of_app, list_elem_of_singleton, lookup_insert_is_Some, Hkeys.
      destruct (decide (e = x)) as [->|Hne]; [by split; auto|].
      split.
      + intros [Hx|Hx]; [by auto | by subst x].
      + intros [Hx|[_ Hx]]; [done | by auto].
    - intros x value. rewrite lookup_insert_Some.
      intros [[_ <-]|[_ Hx]]; [by left | by eapply Hshape].
    - intros r0 ->. rewrite elem_of_app, list_elem_of_singleton.
      destruct Hr as [Hr|[= ->]]; [left; by apply Hroot | by right].
    - done. }
  case_bool_decide; simpl.
  - apply (Hwf (Some e)). by right.
  - specialize (Hwf (_root m) (or_introl eq_refl)).
    by destruct m.
Qed.

Lemma createSystem_wf (s : ref) h m :
  registry_wf m → registry_wf (snd (snd (createSystem s h m))).
Proof. unfold createSystem. by destruct (isinstance_System h s). Qed.

Lemma addComponent_wf (e c : ref) h m :
  registry_wf m → registry_wf (snd (snd (addComponent add e c h m))).
Proof.
  intros (Hkeys & Hshape & Hroot & Hid).
  destruct (addComponent_collections_grow add e c h m) as ((_ & Hent & Hnext & Hr) & _).
  pose proof (addComponent_mapping add e c h m) as Hmap.
  set (m' := snd (snd (addComponent add e c h m))) in *.
  split_and!.
  - intros x. rewrite Hent, Hkeys.
    destruct Hmap as [->|(value & Hval & ->)]; [done|].
    rewrite lookup_insert_is_Some.
    destruct (decide (e = x)) as [<-|Hne]; [split; [by left | by eauto]|].
    split; [by auto|]. intros [Hx|[_ Hx]]; [done | by auto].
  - intros x v.
    destruct Hmap as [->|(value & Hval & ->)]; [apply Hshape|].
    rewrite lookup_insert_Some. intros [[_ <-]|[_ Hx]]; [|by eapply Hshape].
    apply new_entry_shape. by eapply Hshape.
  - intros r. rewrite Hr, Hent. apply Hroot.
  - by rewrite Hnext.
Qed.

Lemma addEntityChild_registry (p c : ref) h m :
  snd (snd (addEntityChild add p c h m)) = m.
Proof.
  unfold addEntityChild.
  destruct (h !! p) as [[ep| | | | |]|]; try done.
  destruct (h !! c) as [[ec| | | | |]|]; try done.
  case_bool_decide; [|done]. by destruct (add p c h) as [[[]|ex] h1].
Qed.

Lemma traverse_visit_registry (s : ref) (it : PyArg) h m :
  snd (snd (traverse_visit s it h m)) = m.
Proof. by destruct (traverse_visit_no_call s it h m) as [_ ->]. Qed.

Lemma invoke_all_managers {X} (P : ECSSManager.t → Prop) (self0 : ref)
    (f : Heap Matrix → ECSSManager.t → X * (Heap Matrix * ECSSManager.t)) w :
  (∀ h mgr, P mgr → P (snd (snd (f h mgr)))) →
  all_managers P w → all_managers P (invoke self0 f w).
Proof.
  intros Hf Hw. unfold invoke.
  destruct (instances w !! self0) as [[mgr|]|] eqn:Hself; [|done..].
  specialize (Hf (scene w) mgr (Hw _ _ Hself)).
  destruct (f (scene w) mgr) as [x [h' mgr']]. simpl in Hf.
  intros self mgr2. simpl. rewrite lookup_insert.
  case_decide; [by intros [= <-] | apply Hw].
Qed.

Lemma run_call_registry_wf (c : Call Matrix) w :
  all_managers registry_wf w → all_managers registry_wf (run_call add c w).
Proof.
  intros Hw. destruct c; simpl.
  - unfold construct. destruct (__new__ w) as [obj w1] eqn:Hnew. simpl.
    assert (Hw1 : all_managers registry_wf w1).
    { unfold __new__ in Hnew. destruct (ECSSManager_instance w); injection Hnew as <- <-;
        [done|]. intros self mgr. simpl. rewrite lookup_insert.
      case_decide; [done | apply Hw]. }
    intros self mgr. simpl. rewrite lookup_insert.
    case_decide; [|apply Hw1]. intros [= <-].
    split_and!; simpl; try done.
    intros e. rewrite lookup_empty. split; [by intros ?%elem_of_nil | by intros [? ?]].
  - apply invoke_all_managers; [|done]. intros h mgr. apply createEntity_wf.
  - apply invoke_all_managers; [|done]. intros h mgr. apply createSystem_wf.
  - apply invoke_all_managers; [|done]. intros h mgr. apply addComponent_wf.
  - apply invoke_all_managers; [|done]. intros h mgr. by rewrite addEntityChild_registry.
  - apply invoke_all_managers; [|done]. intros h mgr Hwf.
    pose proof (traverse_visit_registry system iterator h mgr) as Htv.
    destruct (traverse_visit system iterator h mgr) as [[r tr] st]. simpl in *. by subst.
  - done.
Qed.

Lemma run_registry_wf (calls : list (Call Matrix)) w :
  all_managers registry_wf w → all_managers registry_wf (run add calls w).
Proof.
  revert w. induction calls as [|c calls IH]; intros w Hw; [done|].
  simpl. apply IH. by apply run_call_registry_wf.
Qed.

Lemma start_registry_wf h : all_managers registry_wf (start h).
Proof. intros self mgr. unfold start. simpl. by rewrite lookup_empty. Qed.

(** X12: in every state the process can reach, the keys of the mapping are
    exactly the entities of the list [_entities]. *)
Theorem registered_entities_are_the_keys h (calls : list (Call Matrix)) self mgr (e : ref) :
  instances (run add calls (start h)) !! self = Some (Some mgr) →
  e ∈ _entities mgr ↔ is_Some (_entities_components mgr !! e).
Proof.
  intros Hself.
  destruct (run_registry_wf calls (start h) (start_registry_wf h) self mgr Hself)
    as (Hkeys & _). apply Hkeys.
Qed.

(** X13: in every state the process can reach, an entry of the mapping is
    either the placeholder [[None]] alone or a non-empty list of components
    with no [None] in it: the placeholder is gone with the first component,
    and [value[0]] never fails. *)
Theorem entries_keep_their_shape h (calls : list (Call Matrix)) self mgr (e : ref) value :
  instances (run add calls (start h)) !! self = Some (Some mgr) →
  _entities_components mgr !! e = Some value →
  value = [None] ∨ (value ≠ [] ∧ Forall is_Some value).
Proof.
  intros Hself Hval.
  destruct (run_registry_wf calls (start h) (start_registry_wf h) self mgr Hself)
    as (_ & Hshape & _). by eapply Hshape.
Qed.

(** X14: in every state the process can reach, the root, when there is
    one, is an entity of the list [_entities]; and [_next_entity_id] is
    still [0], as no method ever counts with it. *)
Theorem root_is_a_registered_entity h (calls : list (Call Matrix)) self mgr :
  instances (run add calls (start h)) !! self = Some (Some mgr) →
  (∀ r, _root mgr = Some r → r ∈ _entities mgr) ∧ _next_entity_id mgr = 0%Z.
Proof.
  intros Hself.
  destruct (run_registry_wf calls (start h) (start_registry_wf h) self mgr Hself)
    as (_ & _ & Hroot & Hid). done.
Qed.

Lemma lists_grow_refl m : lists_grow m m.
Proof. by repeat split. Qed.

Lemma lists_grow_trans m1 m2 m3 : lists_grow m1 m2 → lists_grow m2 m3 → lists_grow m1 m3.
Proof.
  intros (?&?&?&?) (?&?&?&?). repeat split; by etrans.
Qed.

Lemma createEntity_grows (e : ref) h m : lists_grow m (snd (snd (createEntity e h m))).
Proof.
  unfold createEntity. destruct (h !! e) as [[ent| | | | |]|]; try apply lists_grow_refl.
  case_bool_decide; repeat split; simpl; try done; by apply prefix_app_r.
Qed.

Lemma createSystem_grows (s : ref) h m : lists_grow m (snd (snd (createSystem s h m))).
Proof.
  unfold createSystem. destruct (isinstance_System h s); [|apply lists_grow_refl].
  repeat split; simpl; try done. by apply prefix_app_r.
Qed.

Lemma addComponent_grows (e c : ref) h m :
  lists_grow m (snd (snd (addComponent add e c h m))).
Proof.
  destruct (addComponent_collections_grow add e c h m)
    as ((Hs & He & _ & _) & [l1 Hl1] & [l2 Hl2]).
  repeat split.
  - by rewrite Hs.
  - rewrite Hl1. by apply prefix_app_r.
  - by rewrite He.
  - rewrite Hl2. by apply prefix_app_r.
Qed.

Lemma invoke_grows {X} (self0 : ref)
    (f : Heap Matrix → ECSSManager.t → X * (Heap Matrix * ECSSManager.t)) w self mgr :
  (∀ h m, lists_grow m (snd (snd (f h m)))) →
  instances w !! self = Some (Some mgr) →
  ∃ mgr', instances (invoke self0 f w) !! self = Some (Some mgr') ∧ lists_grow mgr mgr'.
Proof.
  intros Hf Hself. unfold invoke.
  destruct (instances w !! self0) as [[mgr0|]|] eqn:Hself0;
    [|exists mgr; split; [done | apply lists_grow_refl]..].
  specialize (Hf (scene w) mgr0).
  destruct (f (scene w) mgr0) as [x [h' mgr']]. simpl in *.
  destruct (decide (self0 = self)) as [->|Hne].
  - rewrite Hself in Hself0. injection Hself0 as <-.
    exists mgr'. by rewrite lookup_insert_eq.
  - exists mgr. rewrite lookup_insert_ne by done. split; [done | apply lists_grow_refl].
Qed.

Lemma run_call_grows (c : Call Matrix) w self mgr :
  c ≠ Construct → instances w !! self = Some (Some mgr) →
  ∃ mgr', instances (run_call add c w) !! self = Some (Some mgr') ∧ lists_grow mgr mgr'.
Proof.
  intros Hc Hself. destruct c; simpl; [done|..].
  - apply invoke_grows; [|done]. intros h m. apply createEntity_grows.
  - apply invoke_grows; [|done]. intros h m. apply createSystem_grows.
  - apply invoke_grows; [|done]. intros h m. apply addComponent_grows.
  - apply invoke_grows; [|done]. intros h m. rewrite addEntityChild_registry.
    apply lists_grow_refl.
  - apply invoke_grows; [|done]. intros h m.
    pose proof (traverse_visit_registry system iterator h m) as Htv.
    destruct (traverse_visit system iterator h m) as [[r tr] st]. simpl in *. subst.
    apply lists_grow_refl.
  - exists mgr. split; [done | apply lists_grow_refl].
Qed.

(** X15: between two constructions nothing is ever removed: whatever the
    calls, the lists of systems, components, entities and cameras of a
    manager only get longer at their end. *)
Theorem nothing_is_ever_removed (calls : list (Call Matrix)) w self mgr :
  Construct ∉ calls → instances w !! self = Some (Some mgr) →
  ∃ mgr', instances (run add calls w) !! self = Some (Some mgr') ∧
          _systems mgr `prefix_of` _systems mgr' ∧
          _components mgr `prefix_of` _components mgr' ∧
          _entities mgr `prefix_of` _entities mgr' ∧
          _cameras mgr `prefix_of` _cameras mgr'.
Proof.
  revert w mgr. induction calls as [|c calls IH]; intros w mgr Hno Hself.
  - exists mgr. split; [done | apply lists_grow_refl].
  - simpl.
    destruct (run_call_grows c w self mgr) as (mgr1 & Hself1 & Hgrow1); [|done|].
    { intros ->. apply Hno. by left. }
    destruct (IH (run_call add c w) mgr1) as (mgr' & Hself' & Hgrow'); [|done|].
    { intros Hin. apply Hno. by right. }
    exists mgr'. split; [done|]. by apply (lists_grow_trans mgr mgr1 mgr').
Qed.

(** X16: the process never holds more than one manager, and the one it
    holds has had [__init__] run on it: either no manager exists and the
    class attribute is [None], or the class attribute names the only one. *)
Theorem at_most_one_manager h (calls : list (Call Matrix)) :
  let w := run add calls (start h) in
  match ECSSManager_instance w with
  | None => instances w = ∅
  | Some r => ∃ mgr, instances w = {[ r := Some mgr ]}
  end.
Proof.
  assert (Hstep : ∀ (c : Call Matrix) w,
    match ECSSManager_instance w with
    | None => instances w = ∅
    | Some r => ∃ mgr, instances w = {[ r := Some mgr ]}
    end →
    match ECSSManager_instance (run_call add c w) with
    | None => instances (run_call add c w) = ∅
    | Some r => ∃ mgr, instances (run_call add c w) = {[ r := Some mgr ]}
    end).
  { intros c w Hw.
    assert (Hinv : ∀ {X} self0
      (f : Heap Matrix → ECSSManager.t → X * (Heap Matrix * ECSSManager.t)),
      match ECSSManager_instance (invoke self0 f w) with
      | None => instances (invoke self0 f w) = ∅
      | Some r => ∃ mgr, instances (invoke self0 f w) = {[ r := Some mgr ]}
      end).
    { intros X self0 f. unfold invoke.
      destruct (instances w !! self0) as [[mgr0|]|] eqn:Hself0; [|done..].
      destruct (f (scene w) mgr0) as [x [h' mgr']]. simpl.
      destruct (ECSSManager_instance w) as [r|].
      - destruct Hw as [mgr Hw]. rewrite Hw in Hself0 |- *.
        apply lookup_singleton_Some in Hself0 as [<- _].
        exists mgr'. apply insert_singleton_eq.
      - rewrite Hw in Hself0. by rewrite lookup_empty in Hself0. }
    destruct c; simpl; try apply Hinv; [|done].
    clear Hinv. destruct w as [[r|] ins sc]; unfold construct, __new__; simpl in *.
    - destruct Hw as [mgr ->]. eexists. apply insert_singleton_eq.
    - rewrite Hw. eexists. by rewrite insert_insert_eq, insert_empty. }
  intros w. unfold w. clear w.
  assert (Hstart : match ECSSManager_instance (start h) with
                   | None => instances (start h) = ∅
                   | Some r => ∃ mgr, instances (start h) = {[ r := Some mgr ]}
                   end) by done.
  revert Hstart. generalize (start h). induction calls as [|c calls IH]; intros w Hw; [done|].
  simpl. apply IH. by apply Hstep.
Qed.

End Invariants.

(** ** Witnesses on the concrete scene *)

(** X7, witness: [E] carries [t1] and is given the second transform [t2]. *)
Lemma addComponent_attaches_iff_witness :
  let out := addComponent Entity_add E t2 (fst with_t1) (snd with_t1) in
  (Forall (λ el, isinstance_class (fst with_t1) el BasicTransformK = true) [Some t1] ∧
   fst out = Return None ∧ fst (snd out) = fst with_t1 ∧
   ECSSManager._entities_components (snd (snd out))
   = ECSSManager._entities_components (snd with_t1)) ∨
  (Exists (λ el, isinstance_class (fst with_t1) el BasicTransformK = false) [Some t1] ∧
   fst out = Return (Some t2) ∧ fst (snd out) = snd (Entity_add E t2 (fst with_t1)) ∧
   ECSSManager._entities_components (snd (snd out))
   = <[E := new_entry t2 [Some t1]]> (ECSSManager._entities_components (snd with_t1))).
Proof.
  apply (addComponent_attaches_iff Entity_add E t2 BasicTransformK [Some t1]
           (fst with_t1) (snd with_t1)); vm_compute; reflexivity.
Defined.

(** X9, witness: [E] is registered and given [t1]. *)
Lemma addComponent_after_createEntity_witness :
  let st := snd (createEntity E scene0 ECSSManager.__init__) in
  let out := addComponent Entity_add E t1 (fst st) (snd st) in
  ECSSManager._entities_components (snd st) !! E = Some [None] ∧
  fst out = Return (Some t1) ∧
  ECSSManager._entities_components (snd (snd out)) !! E = Some [Some t1].
Proof.
  apply (addComponent_after_createEntity Entity_add E (Entity.__init__ E "E" "Entity" 1)
           t1 BasicTransformK scene0 ECSSManager.__init__); vm_compute; reflexivity.
Defined.

(** X12, witness: the manager reached by [calls0]. *)
Lemma registered_entities_are_the_keys_witness :
  E ∈ ECSSManager._entities (snd with_t1)
  ↔ is_Some (ECSSManager._entities_components (snd with_t1) !! E).
Proof.
  apply (registered_entities_are_the_keys Entity_add scene0 calls0 1%positive).
  vm_compute. reflexivity.
Defined.

(** X13, witness. *)
Lemma entries_keep_their_shape_witness :
  [Some t1] = [None] ∨ ([Some t1] ≠ [] ∧ Forall is_Some [Some t1]).
Proof.
  apply (entries_keep_their_shape Entity_add scene0 calls0 1%positive (snd with_t1) E).
  - vm_compute. reflexivity.
  - vm_compute. reflexivity.
Defined.

(** X14, witness: the manager that has registered [E] and then the entity
    [R], named ["Root"]: its root is [R], a registered entity. *)
Lemma root_is_a_registered_entity_witness :
  ECSSManager._root mgr_root = Some R ∧
  R ∈ ECSSManager._entities mgr_root ∧
  ECSSManager._next_entity_id mgr_root = 0%Z.
Proof.
  assert (Hself : instances (run Entity_add calls_root (start scene_root)) !! 1%positive
                  = Some (Some mgr_root)) by (vm_compute; reflexivity).
  destruct (root_is_a_registered_entity Entity_add scene_root calls_root 1%positive
              mgr_root Hself) as [Hroot Hid].
  assert (HR : ECSSManager._root mgr_root = Some R) by (vm_compute; reflexivity).
  split; [exact HR|]. split; [exact (Hroot R HR) | exact Hid].
Defined.

(** X15, witness: two more calls on the manager reached by [calls0]. *)
Lemma nothing_is_ever_removed_witness :
  ∃ mgr', instances (run Entity_add [CallCreateEntity 1%positive F; CallCreateSystem 1%positive sys]
                       (run Entity_add calls0 (start scene0))) !! 1%positive
          = Some (Some mgr') ∧
          ECSSManager._systems (snd with_t1) `prefix_of` ECSSManager._systems mgr' ∧
          ECSSManager._components (snd with_t1) `prefix_of` ECSSManager._components mgr' ∧
          ECSSManager._entities (snd with_t1) `prefix_of` ECSSManager._entities mgr' ∧
          ECSSManager._cameras (snd with_t1) `prefix_of` ECSSManager._cameras mgr'.
Proof.
  apply (nothing_is_ever_removed Entity_add
           [CallCreateEntity 1%positive F; CallCreateSystem 1%positive sys]
           (run Entity_add calls0 (start scene0)) 1%positive (snd with_t1)).
  - intros Hin. apply list_elem_of_In in Hin. simpl in Hin.
    destruct Hin as [H|[H|[]]]; discriminate H.
  - vm_compute. reflexivity.
Defined.
